(** * Chronological train/validation splitter

    A shallow embedding of [create_train_val_date_splits] from
    [src/prelude/calendar.py], together with the part of the Python object
    model that the function relies on:

    - integers are unbounded, hence [Z];
    - lists are heap objects reached through references, so that slicing
      allocates a new object and the argument [dates] stays where it is;
    - [range] is the three-field iterator of CPython (next value, step,
      number of values left);
    - a generator is a suspended frame that [next] resumes up to the next
      [yield], the end of the body, or an exception. *)

From stdpp Require Import gmap list strings sorting.
From Stdlib Require Import ZArith Lia.

Local Open Scope Z_scope.

(** ** Exceptions *)

Inductive exn : Type :=
  | ValueError (msg : string)
  | BadReference (l : positive).

(** ** The [range] iterator *)

Module Range.

Record range_iter : Type :=
  RangeIter { ri_start : Z; ri_step : Z; ri_len : nat }.

(** Number of values of [range(lo, hi, step)] for a non-zero step. *)
Definition range_length (lo hi step : Z) : Z :=
  if 0 <? step
  then (if lo <? hi then 1 + (hi - 1 - lo) / step else 0)
  else (if hi <? lo then 1 + (lo - 1 - hi) / (- step) else 0).

Definition py_range (start stop step : Z) : exn + range_iter :=
  if step =? 0
  then inl (ValueError "range() arg 3 must not be zero")
  else inr (RangeIter start step (Z.to_nat (range_length start stop step))).

Definition range_next (it : range_iter) : option (Z * range_iter) :=
  match ri_len it with
  | O => None
  | S n => Some (ri_start it, RangeIter (ri_start it + ri_step it) (ri_step it) n)
  end.

End Range.
Export Range.

(** ** List slicing *)

Section Slices.
Context {A : Type}.

(** Clamping of one slice bound against a length [n]: a negative bound
    counts from the end, and every bound is brought into [0..n]. *)
Definition adjust_index (n i : Z) : Z :=
  if i <? 0 then Z.max 0 (i + n) else Z.min i n.

(** [l[lo:hi]]; [None] stands for an omitted bound. *)
Definition py_slice (l : list A) (lo hi : option Z) : list A :=
  let n := Z.of_nat (length l) in
  let a := from_option (adjust_index n) 0 lo in
  let b := from_option (adjust_index n) n hi in
  take (Z.to_nat (b - a)) (drop (Z.to_nat a) l).

End Slices.

(** ** The object store and the command monad *)

Definition loc : Type := positive.

Section Splitter.
Context {A : Type}.

Local Abbreviation heap := (gmap loc (list A)).

Definition M (X : Type) : Type := heap → (exn + X) * heap.

Definition ret {X} (x : X) : M X := λ h, (inr x, h).

Definition raise {X} (e : exn) : M X := λ h, (inl e, h).

Definition bind {X Y} (m : M X) (k : X → M Y) : M Y :=
  λ h, match m h with
       | (inl e, h') => (inl e, h')
       | (inr x, h') => k x h'
       end.

Definition lift {X} (r : exn + X) : M X :=
  match r with inl e => raise e | inr x => ret x end.

Local Notation "'let*' x := m 'in' k" := (bind m (λ x, k))
  (at level 10, x name, m at level 100, k at level 200, only parsing).
Local Notation "'let*' ' p := m 'in' k" :=
  (bind m (λ x, match x with p => k end))
  (at level 10, p pattern, m at level 100, k at level 200, only parsing).

(** [len(r)] *)
Definition py_len (r : loc) : M Z :=
  λ h, match h !! r with
       | Some l => (inr (Z.of_nat (length l)), h)
       | None => (inl (BadReference r), h)
       end.

(** A new list object. *)
Definition py_new (l : list A) : M loc :=
  λ h, let r := fresh (dom h) in (inr r, <[r:=l]> h).

(** [r[lo:hi]]: slicing a list always builds a new list. *)
Definition py_getslice (r : loc) (lo hi : option Z) : M loc :=
  λ h, match h !! r with
       | Some l => py_new (py_slice l lo hi) h
       | None => (inl (BadReference r), h)
       end.

(** ** The generator *)

(** Local variables that live across a [yield]. *)
Record frame : Type :=
  Frame { total_window : Z; done_flag : bool; range_it : range_iter }.

Inductive gen_pc : Type :=
  | NotStarted
  | AtYield (fr : frame)
  | Finished.

Record generator : Type :=
  Generator {
    dates : loc;
    train_window : Z;
    val_window : Z;
    fold_incomplete : bool;
    pc : gen_pc
  }.

Definition set_pc (g : generator) (p : gen_pc) : generator :=
  Generator (dates g) (train_window g) (val_window g) (fold_incomplete g) p.

(** Calling the function only builds the generator object. *)
Definition create_train_val_date_splits
    (dates : loc) (train_window val_window : Z) (fold_incomplete : bool)
    : generator :=
  Generator dates train_window val_window fold_incomplete NotStarted.

(** From the head of the [for] statement to the next [yield] ([Some]) or
    to the end of the loop ([None]: the range is exhausted, or [break]). *)
Definition for_iteration (g : generator) (fr : frame)
    : M (option (loc * loc * frame)) :=
  match range_next (range_it fr) with
  | None => ret None
  | Some (start, it) =>
      let end_ := start + total_window fr in
      let* n := py_len (dates g) in
      let is_last_window := end_ + val_window g >? n in
      let* '(window, done_flag) :=
        (if fold_incomplete g && is_last_window
         then let* w := py_getslice (dates g) (Some start) None in
              ret (w, true)
         else let* w := py_getslice (dates g) (Some start) (Some end_) in
              ret (w, done_flag fr)) in
      let* m := py_len window in
      if m <=? train_window g
      then ret None
      else
        let* train := py_getslice window None (Some (train_window g)) in
        let* val := py_getslice window (Some (train_window g)) None in
        ret (Some (train, val, Frame (total_window fr) done_flag it))
  end.

(** The body of the function, resumed where it was left. *)
Definition resume (g : generator) : M (option (loc * loc * frame)) :=
  match pc g with
  | NotStarted =>
      let total_window := train_window g + val_window g in
      let done_flag := false in
      let* n := py_len (dates g) in
      let* it := lift (py_range 0 n (val_window g)) in
      for_iteration g (Frame total_window done_flag it)
  | AtYield fr =>
      if done_flag fr then ret None else for_iteration g fr
  | Finished => ret None
  end.

Inductive outcome : Type :=
  | Yield (train val : loc)
  | StopIteration
  | Raise (e : exn).

(** [next(g)] *)
Definition gen_next (g : generator) (h : heap) : outcome * generator * heap :=
  match resume g h with
  | (inl e, h') => (Raise e, set_pc g Finished, h')
  | (inr None, h') => (StopIteration, set_pc g Finished, h')
  | (inr (Some (t, v, fr)), h') => (Yield t v, set_pc g (AtYield fr), h')
  end.

(** [list(g)]: calls [next] until the generator stops or raises. [None]
    means that [fuel] calls were not enough. *)
Fixpoint py_list (fuel : nat) (g : generator) (h : heap)
    : option ((exn + list (loc * loc)) * heap) :=
  match fuel with
  | O => None
  | S fuel' =>
      match gen_next g h with
      | (Yield t v, g', h') =>
          match py_list fuel' g' h' with
          | Some (inr items, h'') => Some (inr ((t, v) :: items), h'')
          | r => r
          end
      | (StopIteration, _, h') => Some (inr [], h')
      | (Raise e, _, h') => Some (inl e, h')
      end
  end.

(** The lists behind the yielded references. *)
Fixpoint read_splits (h : heap) (items : list (loc * loc))
    : exn + list (list A * list A) :=
  match items with
  | [] => inr []
  | (t, v) :: items' =>
      match h !! t, h !! v with
      | Some train, Some val =>
          match read_splits h items' with
          | inr rest => inr ((train, val) :: rest)
          | inl e => inl e
          end
      | None, _ => inl (BadReference t)
      | _, None => inl (BadReference v)
      end
  end.

(** [list(create_train_val_date_splits(d, ...))] in the store [h], with
    the yielded lists read back. *)
Definition split_in (fuel : nat) (h : heap) (d : loc)
    (train_window val_window : Z) (fold_incomplete : bool)
    : option (exn + list (list A * list A)) :=
  match py_list fuel
          (create_train_val_date_splits d train_window val_window fold_incomplete) h with
  | None => None
  | Some (inl e, _) => Some (inl e)
  | Some (inr items, h') => Some (read_splits h' items)
  end.

(** The same on a list literal, which is a new object of an otherwise
    empty store. *)
Definition split (fuel : nat) (ds : list A)
    (train_window val_window : Z) (fold_incomplete : bool)
    : option (exn + list (list A * list A)) :=
  match py_new ds ∅ with
  | (inr d, h) => split_in fuel h d train_window val_window fold_incomplete
  | (inl e, _) => Some (inl e)
  end.

End Splitter.

(** ** The yielded values, read off the code

    What one pass through the loop body computes from the contents [ds] of
    [dates] alone. The lemmas below show that running the generator in any
    store produces exactly these values. *)

Section Values.
Context {A : Type}.
Variables (ds : list A) (tw vw : Z) (fold : bool).

(** [window] and [done_flag] for a given [start]. *)
Definition window_at (start : Z) : list A * bool :=
  let end_ := start + (tw + vw) in
  if fold && (end_ + vw >? Z.of_nat (length ds))
  then (py_slice ds (Some start) None, true)
  else (py_slice ds (Some start) (Some end_), false).

(** [train], [val] and [done_flag] for a given [start]; [None] at [break]. *)
Definition split_at (start : Z) : option (list A * list A * bool) :=
  let '(w, dn) := window_at start in
  if Z.of_nat (length w) <=? tw then None
  else Some (py_slice w None (Some tw), py_slice w (Some tw) None, dn).

(** The splits yielded from [start] on when the range has [n] values left. *)
Fixpoint splits_from (n : nat) (start : Z) : list (list A * list A) :=
  match n with
  | O => []
  | S n' =>
      match split_at start with
      | None => []
      | Some (t, v, dn) =>
          (t, v) :: (if dn then [] else splits_from n' (start + vw))
      end
  end.

Definition split_values : exn + list (list A * list A) :=
  match py_range 0 (Z.of_nat (length ds)) vw with
  | inl e => inl e
  | inr it => inr (splits_from (ri_len it) (ri_start it))
  end.

End Values.

(** ** The trading calendar

    [get_date_list] and [get_date_by_offset] of [src/prelude/calendar.py]
    work on the calendar file of an exchange, a table with the integer
    columns [TradeDate] (YYYYMMDD), [isValid] and [isHalfDay]. The table is
    a list of rows in file order; filtering a frame keeps the rows that
    satisfy the predicate, in order. *)

Record cal_row : Type :=
  CalRow { TradeDate : Z; isValid : Z; isHalfDay : Z }.

Inductive cal_error : Type :=
  | NotOneRow (rows : nat)    (* ValueError of [item()]: the frame is not 1 x 1 *)
  | IndexError (index : Z).   (* index out of bounds *)

(** Positions of the [true] entries of a Boolean column. *)
Fixpoint arg_true_from (i : nat) (bs : list bool) : list nat :=
  match bs with
  | [] => []
  | b :: bs' => (if b then [i] else []) ++ arg_true_from (S i) bs'
  end.

Definition arg_true (bs : list bool) : list nat := arg_true_from 0 bs.

(** [item()] on a frame with one column: its only value, if it has exactly
    one row. *)
Definition item {X : Type} (column : list X) : cal_error + X :=
  match column with
  | [x] => inr x
  | _ => inl (NotOneRow (length column))
  end.

(** [series[i]] for an integer [i]: a negative index counts from the end;
    an index outside the series is an error. *)
Definition series_getitem (series : list Z) (i : Z) : cal_error + Z :=
  let j := if i <? 0 then i + Z.of_nat (length series) else i in
  if j <? 0 then inl (IndexError i)
  else match series !! Z.to_nat j with
       | Some x => inr x
       | None => inl (IndexError i)
       end.

Section Calendar.

(** [pl.read_parquet(get_calendar_path(exchange))]: the rows of the calendar
    file of [exchange]. *)
Variable read_calendar : string → list cal_row.

Definition get_date_list (start_date end_date : Z) (exchange : string)
    (exclude_bad_dates include_half_days : bool) : list Z :=
  let df_cal :=
    filter (λ r, start_date ≤ TradeDate r ≤ end_date) (read_calendar exchange) in
  let df_cal :=
    if exclude_bad_dates then filter (λ r, isValid r = 1) df_cal else df_cal in
  let df_cal :=
    if negb include_half_days then filter (λ r, isHalfDay r = 0) df_cal
    else df_cal in
  TradeDate <$> df_cal.

Definition get_date_by_offset (run_date offset : Z) (exchange : string)
    (exclude_bad_dates include_half_days : bool) : cal_error + Z :=
  let df_cal := read_calendar exchange in
  let df_cal :=
    if exclude_bad_dates then filter (λ r, isValid r = 1) df_cal else df_cal in
  let df_cal :=
    if negb include_half_days then filter (λ r, isHalfDay r = 0) df_cal
    else df_cal in
  match item (arg_true ((λ r, bool_decide (TradeDate r = run_date)) <$> df_cal)) with
  | inl e => inl e
  | inr idx0 => series_getitem (TradeDate <$> df_cal) (Z.of_nat idx0 + offset)
  end.

End Calendar.

(** A sample calendar: five days, of which the third is not valid and the
    fourth is a half day. *)
Definition sample_calendar (exchange : string) : list cal_row :=
  [ CalRow 20240102 1 0; CalRow 20240103 1 0; CalRow 20240104 0 0;
    CalRow 20240105 1 1; CalRow 20240108 1 0 ].

(** [ceil(a / b)] for a positive [b]. *)
Definition ceil_div (a b : Z) : Z := (a + b - 1) / b.

(** ** Sample data: [list(range(10))], alone in a store and next to another
    object *)

Definition range10 : list Z := [0; 1; 2; 3; 4; 5; 6; 7; 8; 9].

Definition store10 : gmap loc (list Z) := {[ 1%positive := range10 ]}.

(** Another store with the same list at another place. *)
Definition store10' : gmap loc (list Z) :=
  {[ 2%positive := [42]; 5%positive := range10 ]}.

(** * Properties *)

Example split_range10_false :
  split 11 range10 3 2 false
  = Some (inr [([0;1;2],[3;4]); ([2;3;4],[5;6]); ([4;5;6],[7;8]); ([6;7;8],[9])]).
Proof. vm_compute. reflexivity. Qed.

Example split_range5_false :
  split 6 [0; 1; 2; 3; 4] 3 2 false = Some (inr [([0; 1; 2], [3; 4])]).
Proof. vm_compute. reflexivity. Qed.

Example split_range3_true :
  split 4 [0; 1; 2] 3 2 true = Some (inr []).
Proof. vm_compute. reflexivity. Qed.

Example split_range4_true :
  split 5 [0; 1; 2; 3] 3 2 true = Some (inr [([0; 1; 2], [3])]).
Proof. vm_compute. reflexivity. Qed.

(** ** The store only grows *)

Section Store.
Context {A : Type}.
Implicit Types (h : gmap loc (list A)) (r : loc) (l : list A).

Lemma py_len_ok h r l :
  h !! r = Some l → py_len r h = (inr (Z.of_nat (length l)), h).
Proof. intros Hr. unfold py_len. by rewrite Hr. Qed.

Lemma py_new_ok h l :
  ∃ r, py_new l h = (inr r, <[r:=l]> h) ∧ h !! r = None.
Proof.
  exists (fresh (dom h)). split; [done|].
  apply not_elem_of_dom, is_fresh.
Qed.

Lemma py_getslice_ok h r l lo hi :
  h !! r = Some l →
  ∃ r', py_getslice r lo hi h = (inr r', <[r':=py_slice l lo hi]> h)
        ∧ h !! r' = None.
Proof. intros Hr. unfold py_getslice. rewrite Hr. apply py_new_ok. Qed.

Lemma py_len_frame {h r} {res : exn + Z} {h'} :
  py_len r h = (res, h') → h' = h.
Proof. unfold py_len. destruct (h !! r); by intros [= _ <-]. Qed.

Lemma py_new_frame {h l} {res : exn + loc} {h'} :
  py_new l h = (res, h') → h ⊆ h'.
Proof.
  destruct (py_new_ok h l) as (r & -> & Hr). intros [= _ <-].
  by apply insert_subseteq.
Qed.

Lemma py_getslice_frame {h r lo hi} {res : exn + loc} {h'} :
  py_getslice r lo hi h = (res, h') → h ⊆ h'.
Proof.
  unfold py_getslice. destruct (h !! r).
  - apply py_new_frame.
  - by intros [= _ <-].
Qed.

End Store.

Section Frame.
Context {A : Type}.
Implicit Types (h : gmap loc (list A)) (g : @generator).

(** Runs the next command of a [bind] chain and records how its final
    store relates to its initial one. *)
Local Ltac run_cmd :=
  match goal with
  | |- context [bind (py_len ?r) _ ?h] =>
      let E := fresh "E" in
      unfold bind at 1; destruct (py_len r h) as [[?|?] ?] eqn:E;
      pose proof (py_len_frame E); subst
  | |- context [bind (py_getslice ?r ?lo ?hi) _ ?h] =>
      let E := fresh "E" in
      unfold bind at 1; destruct (py_getslice r lo hi h) as [[?|?] ?] eqn:E;
      pose proof (py_getslice_frame E)
  end.

Local Ltac stop_here :=
  intros [= _ <-]; repeat (etrans; [eassumption|]); done.

Lemma for_iteration_frame g fr h res h' :
  for_iteration g fr h = (res, h') → h ⊆ h'.
Proof.
  unfold for_iteration.
  destruct (range_next (range_it fr)) as [[start it]|]; [|stop_here].
  run_cmd; [stop_here|].
  unfold bind at 1.
  destruct (fold_incomplete g && _).
  - run_cmd; [stop_here|]. unfold ret at 1.
    run_cmd; [stop_here|].
    destruct (_ <=? _); [stop_here|].
    run_cmd; [stop_here|].
    run_cmd; stop_here.
  - run_cmd; [stop_here|]. unfold ret at 1.
    run_cmd; [stop_here|].
    destruct (_ <=? _); [stop_here|].
    run_cmd; [stop_here|].
    run_cmd; stop_here.
Qed.

Lemma resume_frame g h res h' :
  resume g h = (res, h') → h ⊆ h'.
Proof.
  unfold resume. destruct (pc g) as [|fr|].
  - run_cmd; [stop_here|].
    unfold bind at 1, lift.
    destruct (py_range _ _ _); [stop_here|]. unfold ret at 1.
    apply for_iteration_frame.
  - destruct (done_flag fr); [stop_here|]. apply for_iteration_frame.
  - stop_here.
Qed.

Lemma gen_next_frame g h o g' h' :
  gen_next g h = (o, g', h') → h ⊆ h'.
Proof.
  unfold gen_next.
  destruct (resume g h) as [[e|[[[t v] fr]|]] h1] eqn:E;
    apply resume_frame in E; by intros [= _ _ <-].
Qed.

Lemma py_list_frame fuel g h res h' :
  py_list fuel g h = Some (res, h') → h ⊆ h'.
Proof.
  revert g h res h'. induction fuel as [|fuel IH]; intros g h res h'; [done|].
  simpl. destruct (gen_next g h) as [[[t v| |e] g1] h1] eqn:E;
    apply gen_next_frame in E.
  - destruct (py_list fuel g1 h1) as [[[e|items] h2]|] eqn:E2; [| |done];
      apply IH in E2; intros [= _ <-]; by etrans.
  - by intros [= _ <-].
  - by intros [= _ <-].
Qed.

End Frame.

(** ** Running the generator computes the values read off the code *)

Section Simulation.
Context {A : Type}.
Variables (ds : list A) (d : loc) (tw vw : Z) (fold : bool).
Implicit Types (h : gmap loc (list A)).

Let at_yield (dn : bool) (it : range_iter) : @generator :=
  Generator d tw vw fold (AtYield (Frame (tw + vw) dn it)).

Lemma for_iteration_exhausted p h start :
  for_iteration (Generator d tw vw fold p)
    (Frame (tw + vw) false (RangeIter start vw 0)) h = (inr None, h).
Proof. done. Qed.

Lemma for_iteration_sim p h start n :
  h !! d = Some ds →
  ∃ res h',
    for_iteration (Generator d tw vw fold p)
      (Frame (tw + vw) false (RangeIter start vw (S n))) h = (inr res, h')
    ∧ match split_at ds tw vw fold start with
      | None => res = None
      | Some (t, v, dn) =>
          ∃ rt rv,
            res = Some (rt, rv, Frame (tw + vw) dn (RangeIter (start + vw) vw n))
            ∧ h' !! rt = Some t ∧ h' !! rv = Some v
      end.
Proof.
  intros Hd. unfold for_iteration, split_at, window_at. cbn [range_next ri_len
  range_it ri_start ri_step dates val_window train_window fold_incomplete
  total_window done_flag].
unfold bind at 1. rewrite (py_len_ok _ _ _ Hd).
unfold bind at 1.
(* the window, from either branch *)
destruct (fold && _);
  [destruct (py_getslice_ok h d ds (Some start) None Hd) as (w & Ew & Hw)
  |destruct (py_getslice_ok h d ds (Some start) (Some (start + (tw + vw))) Hd)
     as (w & Ew & Hw)].
all: unfold bind at 1; rewrite Ew; unfold ret at 1.
all: set (h1 := <[w:=_]> h); set (win := py_slice ds _ _) in *.
all: assert (Hw1 : h1 !! w = Some win) by apply lookup_insert_eq.
all: unfold bind at 1; rewrite (py_len_ok _ _ _ Hw1).
all: destruct (_ <=? tw); [by eexists _, _|].
(* the two slices of the window *)
all: destruct (py_getslice_ok h1 w win None (Some tw) Hw1) as (rt & Et & Ht).
all: unfold bind at 1; rewrite Et.
all: set (h2 := <[rt:=_]> h1).
all: assert (Hw2 : h2 !! w = Some win)
  by (unfold h2; rewrite lookup_insert_ne; [done|]; intros ->; congruence).
all: destruct (py_getslice_ok h2 w win (Some tw) None Hw2) as (rv & Ev & Hv).
all: unfold bind at 1; rewrite Ev.
all: eexists _, _; split; [done|]; exists rt, rv; split; [done|].
all: split; [|apply lookup_insert_eq].
all: rewrite lookup_insert_ne; [apply lookup_insert_eq|].
all: intros <-; unfold h2 in Hv; by rewrite lookup_insert_eq in Hv.
Qed.

Lemma py_list_done fuel h it :
  py_list (S fuel) (at_yield true it) h = Some (inr [], h).
Proof. done. Qed.

Lemma py_list_sim n : ∀ fuel start h,
  h !! d = Some ds → (n < fuel)%nat →
  ∃ items h',
    py_list fuel (at_yield false (RangeIter start vw n)) h = Some (inr items, h')
    ∧ read_splits h' items = inr (splits_from ds tw vw fold n start).
Proof.
  induction n as [|n IH]; intros [|fuel] start h Hd Hfuel; try lia.
  { by exists [], h. }
  destruct (for_iteration_sim (AtYield (Frame (tw + vw) false (RangeIter start vw (S n))))
              h start n Hd) as (res & h1 & Erun & Hres).
  pose proof (for_iteration_frame _ _ _ _ _ Erun) as Hsub1.
  cbn [py_list splits_from]. unfold gen_next, resume, at_yield.
  cbn [pc done_flag]. rewrite Erun.
  destruct (split_at ds tw vw fold start) as [[[t v] dn]|]; [|subst res; by exists [], h1].
  destruct Hres as (rt & rv & -> & Ht & Hv).
  unfold set_pc. cbn [dates train_window val_window fold_incomplete].
  destruct dn.
  - destruct fuel as [|fuel]; [lia|].
    fold (at_yield true (RangeIter (start + vw) vw n)). rewrite py_list_done.
    exists [(rt, rv)], h1. split; [done|]. simpl. by rewrite Ht, Hv.
  - destruct (IH fuel (start + vw) h1) as (items & h2 & Elist & Hread);
      [by eapply lookup_weaken|lia|].
    fold (at_yield false (RangeIter (start + vw) vw n)). rewrite Elist.
    pose proof (py_list_frame _ _ _ _ _ Elist) as Hsub2.
    exists ((rt, rv) :: items), h2. split; [done|]. simpl.
    rewrite (lookup_weaken _ _ _ _ Ht Hsub2), (lookup_weaken _ _ _ _ Hv Hsub2).
    by rewrite Hread.
Qed.

Lemma range_length_bounds (n step : Z) :
  0 ≤ n → 0 ≤ range_length 0 n step ≤ n.
Proof.
  intros Hn. unfold range_length.
  destruct (Z.ltb_spec 0 step) as [Hstep|Hstep].
  - destruct (Z.ltb_spec 0 n) as [Hpos|]; [|lia].
    pose proof (Z.div_pos (n - 1 - 0) step ltac:(lia) Hstep).
    pose proof (Z.div_le_upper_bound (n - 1 - 0) step (n - 1) Hstep ltac:(nia)).
    lia.
  - destruct (Z.ltb_spec n 0); lia.
Qed.

Lemma py_list_start fuel h it :
  h !! d = Some ds →
  py_range 0 (Z.of_nat (length ds)) vw = inr it →
  py_list (S fuel) (create_train_val_date_splits d tw vw fold) h
  = py_list (S fuel) (at_yield false it) h.
Proof.
  intros Hd Hrange. cbn [py_list]. unfold gen_next, resume.
  cbn [pc create_train_val_date_splits at_yield done_flag dates val_window
       train_window].
  unfold bind at 1. rewrite (py_len_ok _ _ _ Hd).
  unfold bind at 1. rewrite Hrange. done.
Qed.

Lemma py_list_zero_step fuel h :
  h !! d = Some ds → vw = 0 →
  py_list (S fuel) (create_train_val_date_splits d tw vw fold) h
  = Some (inl (ValueError "range() arg 3 must not be zero"), h).
Proof.
  intros Hd ->. cbn [py_list]. unfold gen_next, resume.
  cbn [pc create_train_val_date_splits dates val_window train_window].
  unfold bind at 1. by rewrite (py_len_ok _ _ _ Hd).
Qed.

(** Whatever the store, the run yields the values read off the code and
    leaves every object that was there before as it was. *)
Lemma py_list_create_sim fuel h :
  h !! d = Some ds → (length ds < fuel)%nat →
  ∃ res h',
    py_list fuel (create_train_val_date_splits d tw vw fold) h = Some (res, h')
    ∧ h ⊆ h'
    ∧ match res with
      | inl e => split_values ds tw vw fold = inl e
      | inr items => read_splits h' items = split_values ds tw vw fold
      end.
Proof.
  intros Hd Hfuel. destruct fuel as [|fuel]; [lia|].
  unfold split_values.
  destruct (py_range 0 (Z.of_nat (length ds)) vw) as [e|it] eqn:Hrange.
  - unfold py_range in Hrange. destruct (Z.eqb_spec vw 0) as [Hz|]; [|done].
    injection Hrange as <-. rewrite (py_list_zero_step _ _ Hd Hz).
    by eexists _, _.
  - rewrite (py_list_start _ _ _ Hd Hrange).
    unfold py_range in Hrange. destruct (vw =? 0); [done|].
    injection Hrange as <-. cbn [ri_len ri_start].
    pose proof (range_length_bounds (Z.of_nat (length ds)) vw ltac:(lia)).
    destruct (py_list_sim (Z.to_nat (range_length 0 (Z.of_nat (length ds)) vw))
                (S fuel) 0 h Hd ltac:(lia)) as (items & h' & Elist & Hread).
    exists (inr items), h'. split; [done|]. split; [|done].
    by eapply py_list_frame.
Qed.

Lemma split_in_sim fuel h :
  h !! d = Some ds → (length ds < fuel)%nat →
  split_in fuel h d tw vw fold = Some (split_values ds tw vw fold).
Proof.
  intros Hd Hfuel.
  destruct (py_list_create_sim fuel h Hd Hfuel) as (res & h' & Elist & _ & Hres).
  unfold split_in. rewrite Elist. destruct res; by rewrite Hres.
Qed.

End Simulation.

Lemma split_sim {A} fuel (ds : list A) tw vw fold :
  (length ds < fuel)%nat →
  split fuel ds tw vw fold = Some (split_values ds tw vw fold).
Proof.
  intros Hfuel. unfold split, py_new. apply split_in_sim; [|done].
  apply lookup_insert_eq.
Qed.

(** ** Slices with bounds that are not negative *)

Section SliceFacts.
Context {A : Type}.
Implicit Types (l : list A).

Lemma adjust_index_nonneg n i : 0 ≤ i → adjust_index n i = Z.min i n.
Proof. intros Hi. unfold adjust_index. destruct (Z.ltb_spec i 0); [lia|done]. Qed.

Lemma py_slice_from l lo :
  0 ≤ lo → py_slice l (Some lo) None = drop (Z.to_nat lo) l.
Proof.
  intros Hlo. unfold py_slice. cbn [from_option].
  rewrite adjust_index_nonneg by done.
  destruct (Z.le_gt_cases lo (Z.of_nat (length l))) as [Hle|Hgt].
  - rewrite Z.min_l by done. apply take_ge. rewrite length_drop. lia.
  - rewrite Z.min_r by lia. rewrite Nat2Z.id.
    rewrite !drop_ge by lia. by rewrite take_nil.
Qed.

Lemma py_slice_between l lo len :
  0 ≤ lo → 0 ≤ len →
  py_slice l (Some lo) (Some (lo + len))
  = take (Z.to_nat len) (drop (Z.to_nat lo) l).
Proof.
  intros Hlo Hlen. unfold py_slice. cbn [from_option].
  rewrite !adjust_index_nonneg by lia.
  destruct (Z.le_gt_cases lo (Z.of_nat (length l))) as [Hle|Hgt].
  - rewrite (Z.min_l lo) by done.
    destruct (Z.le_gt_cases (lo + len) (Z.of_nat (length l))).
    + rewrite Z.min_l by done. f_equal. lia.
    + rewrite Z.min_r by lia. rewrite !take_ge; [done|..];
        rewrite length_drop; lia.
  - rewrite !Z.min_r by lia. rewrite Nat2Z.id.
    rewrite !drop_ge by lia. by rewrite !take_nil.
Qed.

Lemma py_slice_upto l hi :
  0 ≤ hi → py_slice l None (Some hi) = take (Z.to_nat hi) l.
Proof.
  intros Hhi. unfold py_slice. cbn [from_option].
  rewrite adjust_index_nonneg by done. rewrite Z.sub_0_r.
  change (Z.to_nat 0) with 0%nat. rewrite drop_0.
  destruct (Z.le_gt_cases hi (Z.of_nat (length l))).
  - by rewrite Z.min_l.
  - rewrite Z.min_r by lia. rewrite !take_ge; [done|lia..].
Qed.

End SliceFacts.

(** ** One pass through the loop body *)

Section Body.
Context {A : Type}.
Variables (ds : list A) (tw vw : Z) (fold : bool).
Hypothesis Htw : 0 ≤ tw.
Hypothesis Hvw : 1 ≤ vw.

Local Abbreviation n := (Z.of_nat (length ds)).

Lemma window_at_eq start :
  0 ≤ start →
  window_at ds tw vw fold start
  = if fold && (start + (tw + vw) + vw >? n)
    then (drop (Z.to_nat start) ds, true)
    else (take (Z.to_nat (tw + vw)) (drop (Z.to_nat start) ds), false).
Proof.
  intros Hs. unfold window_at. destruct (fold && _).
  - by rewrite py_slice_from.
  - by rewrite py_slice_between by lia.
Qed.

Lemma window_at_length start :
  0 ≤ start →
  Z.of_nat (length (window_at ds tw vw fold start).1)
  = if fold && (start + (tw + vw) + vw >? n)
    then Z.max 0 (n - start)
    else Z.min (tw + vw) (Z.max 0 (n - start)).
Proof.
  intros Hs. rewrite window_at_eq by done. destruct (fold && _); cbn [fst].
  - rewrite length_drop. lia.
  - rewrite length_take, length_drop. lia.
Qed.

Lemma split_at_Some start t v dn :
  0 ≤ start →
  split_at ds tw vw fold start = Some (t, v, dn) →
  dn = fold && (start + (tw + vw) + vw >? n)
  ∧ (window_at ds tw vw fold start).1 = t ++ v
  ∧ Z.of_nat (length t) = tw
  ∧ 1 ≤ Z.of_nat (length v).
Proof.
  intros Hs. unfold split_at.
  pose proof (window_at_eq start Hs) as Hw.
  destruct (window_at ds tw vw fold start) as [w dn'] eqn:Ew.
  destruct (Z.leb_spec (Z.of_nat (length w)) tw) as [|Hlen]; [done|].
  intros [= <- <- <-]. cbn [fst].
  rewrite py_slice_upto, py_slice_from by done.
  rewrite take_drop, length_take, length_drop.
  repeat split; [|lia..].
  destruct (fold && _); by injection Hw.
Qed.

Lemma split_at_None start :
  0 ≤ start →
  split_at ds tw vw fold start = None →
  n ≤ start + tw.
Proof.
  intros Hs. unfold split_at.
  pose proof (window_at_length start Hs) as Hw.
  destruct (window_at ds tw vw fold start) as [w dn'].
  cbn [fst] in Hw.
  destruct (Z.leb_spec (Z.of_nat (length w)) tw) as [Hlen|]; [|done].
  intros _. destruct (fold && _); lia.
Qed.

Lemma split_at_room start t v dn :
  0 ≤ start →
  split_at ds tw vw fold start = Some (t, v, dn) →
  start + tw < n.
Proof.
  intros Hs Hsplit.
  destruct (split_at_Some _ _ _ _ Hs Hsplit) as (_ & Hw & Ht & Hv).
  pose proof (window_at_length start Hs) as Hlen.
  rewrite Hw, length_app in Hlen. destruct (fold && _); lia.
Qed.

(** The length of the validation slice, in each of the two branches. *)
Lemma split_at_val_length start t v dn :
  0 ≤ start →
  split_at ds tw vw fold start = Some (t, v, dn) →
  Z.of_nat (length v)
  = if dn then n - start - tw else Z.min vw (n - start - tw).
Proof.
  intros Hs Hsplit.
  destruct (split_at_Some _ _ _ _ Hs Hsplit) as (-> & Hw & Ht & Hv).
  pose proof (window_at_length start Hs) as Hlen.
  rewrite Hw, length_app in Hlen. destruct (fold && _); lia.
Qed.

(** Where the yielded slices sit in [ds]. *)
Lemma split_at_position start t v dn :
  0 ≤ start →
  split_at ds tw vw fold start = Some (t, v, dn) →
  ∃ post, ds = take (Z.to_nat start) ds ++ t ++ v ++ post
          ∧ (dn = true → post = []).
Proof.
  intros Hs Hsplit.
  destruct (split_at_Some _ _ _ _ Hs Hsplit) as (-> & Hw & _).
  rewrite window_at_eq in Hw by done. destruct (fold && _); cbn [fst] in Hw.
  - exists []. split; [|done].
    by rewrite app_nil_r, <- Hw, take_drop.
  - exists (drop (Z.to_nat (tw + vw)) (drop (Z.to_nat start) ds)).
    split; [|done].
    by rewrite (assoc_L (++) t v), <- Hw, !take_drop.
Qed.

End Body.

(** ** The whole loop *)

Section Loop.
Context {A : Type}.
Variables (ds : list A) (tw vw : Z) (fold : bool).

Local Abbreviation splits_from' := (splits_from ds tw vw fold).
Local Abbreviation split_at' := (split_at ds tw vw fold).

Lemma splits_from_length n start :
  (length (splits_from' n start) ≤ n)%nat.
Proof.
  revert start. induction n as [|n IH]; intros start; simpl; [lia|].
  destruct (split_at' start) as [[[t v] [|]]|]; simpl; [lia| |lia].
  specialize (IH (start + vw)). lia.
Qed.

(** The [k]-th split is the one computed at [start + k * vw]; it has
    [done_flag] set only if it is the last one; and it is the last one only
    if [done_flag] is set, the range is used up, or the next pass breaks. *)
Lemma splits_from_lookup n : ∀ start k t v,
  splits_from' n start !! k = Some (t, v) →
  ∃ dn,
    split_at' (start + Z.of_nat k * vw) = Some (t, v, dn)
    ∧ (dn = true → length (splits_from' n start) = S k)
    ∧ (length (splits_from' n start) = S k →
       dn = true ∨ n = S k
       ∨ split_at' (start + Z.of_nat (S k) * vw) = None)
    ∧ ((S k < length (splits_from' n start))%nat →
       is_Some (split_at' (start + Z.of_nat (S k) * vw))).
Proof.
  induction n as [|n IH]; intros start k t v; [done|].
  cbn [splits_from].
  destruct (split_at' start) as [[[t0 v0] dn0]|] eqn:E0; [|done].
  destruct k as [|k].
  - intros [= -> ->]. exists dn0.
    replace (start + Z.of_nat 0 * vw) with start by lia.
    replace (start + Z.of_nat 1 * vw) with (start + vw) by lia.
    split; [done|]. destruct dn0; cbn [length].
    { split_and!; [done|by left|lia]. }
    destruct n as [|n]; cbn [splits_from length].
    { split_and!; [done|by right; left|lia]. }
    destruct (split_at' (start + vw)) as [[[t1 v1] dn1]|]; cbn [length].
    + split_and!; [done|lia|by eexists].
    + split_and!; [done|by right; right|lia].
  - destruct dn0; [done|]. cbn [lookup list_lookup length]. intros Hk.
    destruct (IH (start + vw) k t v Hk) as (dn & Hsplit & Hdone & Hlast & Hnext).
    replace (start + vw + Z.of_nat k * vw)
      with (start + Z.of_nat (S k) * vw) in Hsplit by lia.
    replace (start + vw + Z.of_nat (S k) * vw)
      with (start + Z.of_nat (S (S k)) * vw) in Hlast, Hnext by lia.
    exists dn. split; [done|]. split_and!.
    + intros Hdn. by rewrite Hdone.
    + intros Hlen. destruct Hlast as [?|[?|?]]; [lia|by left|right; left; lia|by right; right].
    + intros Hlen. apply Hnext. lia.
Qed.

End Loop.

(** ** The range of start offsets *)

Lemma range_length_ceil (n step : Z) :
  0 ≤ n → 1 ≤ step → range_length 0 n step = (n + step - 1) / step.
Proof.
  intros Hn Hstep. unfold range_length.
  destruct (Z.ltb_spec 0 step); [|lia].
  destruct (Z.ltb_spec 0 n).
  - replace (n + step - 1) with (n - 1 - 0 + 1 * step) by lia.
    rewrite Z.div_add by lia. lia.
  - replace n with 0 by lia. rewrite Z.div_small; lia.
Qed.

Lemma range_length_covers (n step : Z) :
  0 ≤ n → 1 ≤ step → n ≤ range_length 0 n step * step.
Proof.
  intros Hn Hstep. rewrite range_length_ceil by done.
  pose proof (Z.mul_succ_div_gt (n + step - 1) step ltac:(lia)). lia.
Qed.

Section Positive.
Context {A : Type}.
Variables (ds : list A) (tw vw : Z) (fold : bool).
Hypothesis Htw : 0 ≤ tw.
Hypothesis Hvw : 1 ≤ vw.

Local Abbreviation n := (Z.of_nat (length ds)).
Local Abbreviation count := (Z.to_nat (range_length 0 n vw)).
Local Abbreviation splits := (splits_from ds tw vw fold count 0).

Lemma start_nonneg (k : nat) : 0 ≤ Z.of_nat k * vw.
Proof. nia. Qed.

Lemma split_values_pos : split_values ds tw vw fold = inr splits.
Proof.
  unfold split_values, py_range. by destruct (Z.eqb_spec vw 0); [lia|].
Qed.

Lemma split_in_pos fuel (h : gmap loc (list A)) d :
  h !! d = Some ds → (length ds < fuel)%nat →
  split_in fuel h d tw vw fold = Some (inr splits).
Proof. intros Hd Hfuel. by rewrite (split_in_sim ds), split_values_pos. Qed.

Lemma splits_lookup k t v :
  splits !! k = Some (t, v) →
  ∃ dn,
    split_at ds tw vw fold (Z.of_nat k * vw) = Some (t, v, dn)
    ∧ (dn = true → length splits = S k)
    ∧ (length splits = S k →
       dn = true ∨ count = S k
       ∨ split_at ds tw vw fold (Z.of_nat (S k) * vw) = None)
    ∧ ((S k < length splits)%nat →
       is_Some (split_at ds tw vw fold (Z.of_nat (S k) * vw))).
Proof. apply splits_from_lookup. Qed.

(** With [fold_incomplete], the last split is the one that sets
    [done_flag]. *)
Lemma splits_last_done k t v dn :
  fold = true →
  splits !! k = Some (t, v) → length splits = S k →
  split_at ds tw vw fold (Z.of_nat k * vw) = Some (t, v, dn) →
  dn = true.
Proof.
  intros Hfold Hk Hlen Hsplit.
  destruct (splits_lookup k t v Hk) as (dn' & Hsplit' & _ & Hlast & _).
  rewrite Hsplit in Hsplit'. injection Hsplit' as <-.
  destruct dn; [done|exfalso].
  destruct (split_at_Some ds tw vw fold Htw Hvw _ _ _ _ (start_nonneg k) Hsplit)
    as (Hdn & _).
  rewrite Hfold in Hdn. cbn [andb] in Hdn. symmetry in Hdn.
  rewrite Z.gtb_ltb, Z.ltb_ge in Hdn.
  destruct (Hlast Hlen) as [?|[Hcount|Hnone]]; [done|..].
  - pose proof (range_length_covers n vw ltac:(lia) Hvw) as Hcov.
    pose proof (range_length_bounds n vw ltac:(lia)). nia.
  - apply (split_at_None ds tw vw fold Htw Hvw _ (start_nonneg (S k))) in Hnone.
    nia.
Qed.

End Positive.

Lemma ceil_div_spec (a b : Z) :
  1 ≤ b → b * (ceil_div a b - 1) < a ≤ b * ceil_div a b.
Proof.
  intros Hb. unfold ceil_div.
  pose proof (Z.mul_div_le (a + b - 1) b ltac:(lia)).
  pose proof (Z.mul_succ_div_gt (a + b - 1) b ltac:(lia)). lia.
Qed.

(** * The claims *)

Section Claims.
Context {A : Type}.
Implicit Types (h : gmap loc (list A)) (d : loc) (ds : list A).

(** C5. With positive windows, iteration ends without an exception and every
    yielded training slice has exactly [train_window] elements. *)
Theorem train_length_exact fuel h d ds tw vw fold :
  h !! d = Some ds → 1 ≤ tw → 1 ≤ vw → (length ds < fuel)%nat →
  ∃ splits,
    split_in fuel h d tw vw fold = Some (inr splits)
    ∧ ∀ t v, (t, v) ∈ splits → Z.of_nat (length t) = tw.
Proof.
  intros Hd Htw Hvw Hfuel. eexists. split; [by apply split_in_pos|].
  intros t v [k Hk]%list_elem_of_lookup.
  destruct (splits_lookup _ _ _ _ _ _ _ Hk) as (dn & Hsplit & _).
  by destruct (split_at_Some ds tw vw fold ltac:(lia) Hvw _ _ _ _
                 (start_nonneg vw Hvw k) Hsplit) as (_ & _ & ? & _).
Qed.

(** C2, as amended. With positive windows, every yielded validation slice
    but the last has exactly [val_window] elements. The last one has at
    least one element, and at most [val_window] elements when
    [fold_incomplete] is false, fewer than [2 * val_window] when it is
    true. *)
Theorem val_length_bounds fuel h d ds tw vw fold :
  h !! d = Some ds → 1 ≤ tw → 1 ≤ vw → (length ds < fuel)%nat →
  ∃ splits,
    split_in fuel h d tw vw fold = Some (inr splits)
    ∧ ∀ k t v, splits !! k = Some (t, v) →
        ((S k < length splits)%nat → Z.of_nat (length v) = vw)
        ∧ (length splits = S k →
           1 ≤ Z.of_nat (length v)
           ∧ if fold then Z.of_nat (length v) < 2 * vw
             else Z.of_nat (length v) ≤ vw).
Proof.
  intros Hd Htw Hvw Hfuel. eexists. split; [by apply split_in_pos|].
  intros k t v Hk.
  assert (Htw0 : 0 ≤ tw) by lia.
  destruct (splits_lookup _ _ _ _ _ _ _ Hk) as (dn & Hsplit & Hdone & _ & Hnext).
  pose proof (start_nonneg vw Hvw k) as Hstart.
  pose proof (split_at_val_length ds tw vw fold Htw0 Hvw _ _ _ _ Hstart Hsplit)
    as Hlen.
  destruct (split_at_Some ds tw vw fold Htw0 Hvw _ _ _ _ Hstart Hsplit)
    as (Hdn & _ & _ & Hv).
  split.
  - intros Hmore. destruct (Hnext Hmore) as [[[t1 v1] dn1] Hsplit1].
    pose proof (split_at_room ds tw vw fold Htw0 Hvw _ _ _ _
                  (start_nonneg vw Hvw (S k)) Hsplit1).
    destruct dn; [specialize (Hdone eq_refl); lia|]. lia.
  - intros _. split; [done|]. destruct dn.
    + symmetry in Hdn. apply andb_true_iff in Hdn as [-> Hlast].
      rewrite Z.gtb_ltb, Z.ltb_lt in Hlast. lia.
    + destruct fold; lia.
Qed.

(** With [fold_incomplete] and positive windows, the last yielded split
    ends at the end of [dates]: what precedes its training slice is the
    first [(number of splits - 1) * val_window] items, and nothing follows
    its validation slice. *)
Lemma fold_last_reaches_end fuel h d ds tw vw :
  h !! d = Some ds → 1 ≤ tw → 1 ≤ vw → (length ds < fuel)%nat →
  ∃ splits,
    split_in fuel h d tw vw true = Some (inr splits)
    ∧ ∀ t v, last splits = Some (t, v) →
        ∃ pre, ds = pre ++ t ++ v
               ∧ Z.of_nat (length pre) = (Z.of_nat (length splits) - 1) * vw.
Proof.
  intros Hd Htw Hvw Hfuel. eexists. split; [by apply split_in_pos|].
  intros t v Hlast. rewrite last_lookup in Hlast.
  assert (Htw0 : 0 ≤ tw) by lia.
  pose proof (lookup_lt_Some _ _ _ Hlast) as Hlt.
  set (k := pred _) in *.
  match type of Hlt with (_ < length ?l)%nat => set (splits := l) in * end.
  assert (Hlen : length splits = S k) by lia.
  destruct (splits_lookup _ _ _ _ _ _ _ Hlast) as (dn & Hsplit & _).
  pose proof (splits_last_done ds tw vw true Htw0 Hvw k t v dn eq_refl Hlast Hlen
                Hsplit) as ->.
  pose proof (start_nonneg vw Hvw k) as Hstart.
  destruct (split_at_position ds tw vw true Htw0 Hvw _ _ _ _ Hstart Hsplit)
    as (post & Hds & Hpost).
  rewrite (Hpost eq_refl), app_nil_r in Hds.
  pose proof (split_at_room ds tw vw true Htw0 Hvw _ _ _ _ Hstart Hsplit).
  eexists. split; [exact Hds|]. rewrite length_take. lia.
Qed.

(** C4. With positive windows, iteration ends without an exception; and when
    [dates] has at most [train_window] items (a single item included),
    nothing is yielded. *)
Theorem no_exception_short_input_empty fuel h d ds tw vw fold :
  h !! d = Some ds → 1 ≤ tw → 1 ≤ vw → (length ds < fuel)%nat →
  ∃ splits,
    split_in fuel h d tw vw fold = Some (inr splits)
    ∧ (Z.of_nat (length ds) ≤ tw → splits = []).
Proof.
  intros Hd Htw Hvw Hfuel. eexists. split; [by apply split_in_pos|].
  intros Hshort.
  destruct (splits_from _ _ _ _ _ _) as [|[t v] rest] eqn:E; [done|exfalso].
  assert (Hk : splits_from ds tw vw fold
                 (Z.to_nat (range_length 0 (Z.of_nat (length ds)) vw)) 0 !! 0%nat
               = Some (t, v)) by by rewrite E.
  destruct (splits_lookup _ _ _ _ _ _ _ Hk) as (dn & Hsplit & _).
  pose proof (split_at_room ds tw vw fold ltac:(lia) Hvw _ _ _ _
                (start_nonneg vw Hvw 0) Hsplit). lia.
Qed.

(** C6. With positive windows, the [k]-th yielded split (counting from 0)
    begins at offset [k * val_window] of [dates]: exactly that many items
    precede its training slice, which its validation slice follows at
    once. Successive splits therefore start [val_window] apart. *)
Theorem start_offsets_stride fuel h d ds tw vw fold :
  h !! d = Some ds → 1 ≤ tw → 1 ≤ vw → (length ds < fuel)%nat →
  ∃ splits,
    split_in fuel h d tw vw fold = Some (inr splits)
    ∧ ∀ k t v, splits !! k = Some (t, v) →
        ∃ pre post, ds = pre ++ t ++ v ++ post
                    ∧ Z.of_nat (length pre) = Z.of_nat k * vw.
Proof.
  intros Hd Htw Hvw Hfuel. eexists. split; [by apply split_in_pos|].
  intros k t v Hk.
  assert (Htw0 : 0 ≤ tw) by lia.
  destruct (splits_lookup _ _ _ _ _ _ _ Hk) as (dn & Hsplit & _).
  pose proof (start_nonneg vw Hvw k) as Hstart.
  destruct (split_at_position ds tw vw fold Htw0 Hvw _ _ _ _ Hstart Hsplit)
    as (post & Hds & _).
  pose proof (split_at_room ds tw vw fold Htw0 Hvw _ _ _ _ Hstart Hsplit).
  eexists _, post. split; [exact Hds|]. rewrite length_take. lia.
Qed.

(** C7. With positive windows, iteration ends (any fuel above the length of
    [dates] is enough) and yields at most [ceil(len(dates) / val_window)]
    splits. *)
Theorem terminates_within_ceil h d ds tw vw fold :
  h !! d = Some ds → 1 ≤ tw → 1 ≤ vw →
  ∃ splits,
    (∀ fuel, (length ds < fuel)%nat →
             split_in fuel h d tw vw fold = Some (inr splits))
    ∧ Z.of_nat (length splits) ≤ ceil_div (Z.of_nat (length ds)) vw.
Proof.
  intros Hd Htw Hvw. eexists. split.
  { intros fuel Hfuel. by apply split_in_pos. }
  unfold ceil_div. rewrite <- range_length_ceil by lia.
  pose proof (splits_from_length ds tw vw fold
                (Z.to_nat (range_length 0 (Z.of_nat (length ds)) vw)) 0).
  pose proof (range_length_bounds (Z.of_nat (length ds)) vw ltac:(lia)).
  lia.
Qed.

(** C8. The yielded values depend on nothing but the contents of [dates] and
    the three other arguments: two runs, in any two stores and with [dates]
    at any two places, end with the same sequence of pairs (or the same
    exception). *)
Theorem deterministic fuel1 fuel2 h1 h2 d1 d2 ds tw vw fold :
  h1 !! d1 = Some ds → h2 !! d2 = Some ds →
  (length ds < fuel1)%nat → (length ds < fuel2)%nat →
  split_in fuel1 h1 d1 tw vw fold = split_in fuel2 h2 d2 tw vw fold
  ∧ is_Some (split_in fuel1 h1 d1 tw vw fold).
Proof.
  intros Hd1 Hd2 Hfuel1 Hfuel2.
  rewrite (split_in_sim ds d1), (split_in_sim ds d2) by done.
  by split.
Qed.

(** C9. For all arguments, positive or not, full iteration ends and leaves
    [dates], like every other object of the initial store, as it was. *)
Theorem dates_unchanged fuel h d ds tw vw fold :
  h !! d = Some ds → (length ds < fuel)%nat →
  ∃ res h',
    py_list fuel (create_train_val_date_splits d tw vw fold) h = Some (res, h')
    ∧ h' !! d = Some ds
    ∧ h ⊆ h'.
Proof.
  intros Hd Hfuel.
  destruct (py_list_create_sim ds d tw vw fold fuel h Hd Hfuel)
    as (res & h' & Elist & Hsub & _).
  exists res, h'. split_and!; [done| |done]. by eapply lookup_weaken.
Qed.

(** C10. The call itself checks nothing: for all arguments it returns a
    generator that has not started. With [val_window = 0] the first [next]
    raises the [ValueError] of [range] (whether [dates] is empty or not),
    so that iterating the generator ends with that exception and not with
    an empty sequence. *)
Theorem no_validation_at_call :
  (∀ d tw vw fold, pc (create_train_val_date_splits d tw vw fold) = NotStarted)
  ∧ (∀ h d ds tw fold,
       h !! d = Some ds →
       gen_next (create_train_val_date_splits d tw 0 fold) h
       = (Raise (ValueError "range() arg 3 must not be zero"),
          set_pc (create_train_val_date_splits d tw 0 fold) Finished, h)
       ∧ ∀ fuel, split_in (S fuel) h d tw 0 fold
                 = Some (inl (ValueError "range() arg 3 must not be zero"))).
Proof.
  split; [done|]. intros h d ds tw fold Hd. split.
  - unfold gen_next, resume.
    cbn [pc create_train_val_date_splits dates val_window train_window].
    unfold bind at 1. by rewrite (py_len_ok _ _ _ Hd).
  - intros fuel. unfold split_in.
    by rewrite (py_list_zero_step ds d tw 0 fold fuel h Hd eq_refl).
Qed.

End Claims.

(** ** The scenarios, and the claims at concrete arguments *)

(** C1 as stated fails: whatever the fuel, the run on [[0,1,2,3]] with
    windows 3 and 2 and without folding does not end with the empty
    sequence. *)
Lemma split_range4_not_empty :
  ¬ ∃ fuel, split fuel [0; 1; 2; 3] 3 2 false = Some (inr []).
Proof.
  intros [fuel Hsplit].
  destruct fuel as [|[|fuel]]; vm_compute in Hsplit; discriminate.
Qed.

(** C1, as amended. On [[0,1,2,3]] with windows 3 and 2 and without folding,
    exactly one split is yielded, [([0,1,2], [3])]: the window [[0,1,2,3]]
    has more than [train_window] items, so the single item left after the
    training slice is yielded as a short validation slice. *)
Theorem split_range4 fuel :
  (4 < fuel)%nat →
  split fuel [0; 1; 2; 3] 3 2 false = Some (inr [([0; 1; 2], [3])]).
Proof. intros Hfuel. rewrite split_sim by (simpl; lia). reflexivity. Qed.

Lemma split_range4_witness :
  split 5 [0; 1; 2; 3] 3 2 false = Some (inr [([0; 1; 2], [3])]).
Proof. apply (split_range4 5). lia. Defined.

Lemma train_length_exact_witness :
  ∃ splits,
    split_in 11 store10 1%positive 3 2 false = Some (inr splits)
    ∧ ∀ t v, (t, v) ∈ splits → Z.of_nat (length t) = 3.
Proof.
  apply (train_length_exact 11 store10 1%positive range10 3 2 false);
    [reflexivity | lia | lia | simpl; lia].
Defined.

(** C2 as stated fails: without folding, the last validation slice of the
    run on [range(10)] with windows 3 and 2 has one element, not two. *)
Lemma val_length_not_exact :
  ∃ splits t v,
    split 11 range10 3 2 false = Some (inr splits)
    ∧ (t, v) ∈ splits
    ∧ Z.of_nat (length v) ≠ 2.
Proof.
  eexists _, [6; 7; 8], [9]. split; [vm_compute; reflexivity|].
  split; [|done]. do 3 apply list_elem_of_further. apply list_elem_of_here.
Qed.

Lemma val_length_bounds_witness :
  ∃ splits,
    split_in 11 store10 1%positive 3 2 false = Some (inr splits)
    ∧ ∀ k t v, splits !! k = Some (t, v) →
        ((S k < length splits)%nat → Z.of_nat (length v) = 2)
        ∧ (length splits = S k →
           1 ≤ Z.of_nat (length v) ∧ Z.of_nat (length v) ≤ 2).
Proof.
  apply (val_length_bounds 11 store10 1%positive range10 3 2 false);
    [reflexivity | lia | lia | simpl; lia].
Defined.

(** C3. With [fold_incomplete] and positive windows, the last yielded split,
    if there is one, takes in all the remaining items: its validation slice
    runs through the last item of [dates]. On [range(10)] with windows 3 and
    2 the result is [([0,1,2],[3,4]), ([2,3,4],[5,6]), ([4,5,6],[7,8,9])]. *)
Theorem fold_absorbs_tail :
  (∀ (A : Type) fuel (h : gmap loc (list A)) d ds tw vw,
     h !! d = Some ds → 1 ≤ tw → 1 ≤ vw → (length ds < fuel)%nat →
     ∃ splits,
       split_in fuel h d tw vw true = Some (inr splits)
       ∧ ∀ t v, last splits = Some (t, v) →
           ∃ pre, ds = pre ++ t ++ v
                  ∧ Z.of_nat (length pre) = (Z.of_nat (length splits) - 1) * vw)
  ∧ (∀ fuel, (10 < fuel)%nat →
       split fuel range10 3 2 true
       = Some (inr [([0; 1; 2], [3; 4]); ([2; 3; 4], [5; 6]); ([4; 5; 6], [7; 8; 9])])).
Proof.
  split.
  - intros A. apply fold_last_reaches_end.
  - intros fuel Hfuel. rewrite split_sim by (simpl; lia). reflexivity.
Qed.

Lemma fold_absorbs_tail_witness :
  (∃ splits,
     split_in 11 store10 1%positive 3 2 true = Some (inr splits)
     ∧ ∀ t v, last splits = Some (t, v) →
         ∃ pre, range10 = pre ++ t ++ v
                ∧ Z.of_nat (length pre) = (Z.of_nat (length splits) - 1) * 2)
  ∧ split 11 range10 3 2 true
    = Some (inr [([0; 1; 2], [3; 4]); ([2; 3; 4], [5; 6]); ([4; 5; 6], [7; 8; 9])]).
Proof.
  split.
  - apply (proj1 fold_absorbs_tail Z 11%nat store10 1%positive range10 3 2);
      [reflexivity | lia | lia | simpl; lia].
  - apply (proj2 fold_absorbs_tail 11%nat). lia.
Defined.

Lemma no_exception_short_input_empty_witness :
  ∃ splits,
    split_in 4 {[ 1%positive := [0; 1; 2] ]} 1%positive 3 2 true = Some (inr splits)
    ∧ (Z.of_nat (length [0; 1; 2]) ≤ 3 → splits = []).
Proof.
  apply (no_exception_short_input_empty 4 {[ 1%positive := [0; 1; 2] ]} 1%positive
           [0; 1; 2] 3 2 true);
    [reflexivity | lia | lia | simpl; lia].
Defined.

Lemma start_offsets_stride_witness :
  ∃ splits,
    split_in 11 store10 1%positive 3 2 false = Some (inr splits)
    ∧ ∀ k t v, splits !! k = Some (t, v) →
        ∃ pre post, range10 = pre ++ t ++ v ++ post
                    ∧ Z.of_nat (length pre) = Z.of_nat k * 2.
Proof.
  apply (start_offsets_stride 11 store10 1%positive range10 3 2 false);
    [reflexivity | lia | lia | simpl; lia].
Defined.

Lemma terminates_within_ceil_witness :
  ∃ splits,
    (∀ fuel, (length range10 < fuel)%nat →
             split_in fuel store10 1%positive 3 2 false = Some (inr splits))
    ∧ Z.of_nat (length splits) ≤ ceil_div (Z.of_nat (length range10)) 2.
Proof.
  apply (terminates_within_ceil store10 1%positive range10 3 2 false);
    [reflexivity | lia | lia].
Defined.

Lemma deterministic_witness :
  split_in 11 store10 1%positive 3 2 true = split_in 12 store10' 5%positive 3 2 true
  ∧ is_Some (split_in 11 store10 1%positive 3 2 true).
Proof.
  apply (deterministic 11 12 store10 store10' 1%positive 5%positive range10 3 2 true);
    [reflexivity | reflexivity | simpl; lia | simpl; lia].
Defined.

Lemma dates_unchanged_witness :
  ∃ res h',
    py_list 11 (create_train_val_date_splits 5%positive 3 2 true) store10'
    = Some (res, h')
    ∧ h' !! 5%positive = Some range10
    ∧ store10' ⊆ h'.
Proof.
  apply (dates_unchanged 11 store10' 5%positive range10 3 2 true);
    [reflexivity | simpl; lia].
Defined.

Lemma no_validation_at_call_witness :
  pc (create_train_val_date_splits 1%positive 3 0 false) = NotStarted
  ∧ gen_next (create_train_val_date_splits 1%positive 3 0 false) store10
    = (Raise (ValueError "range() arg 3 must not be zero"),
       set_pc (create_train_val_date_splits 1%positive 3 0 false) Finished, store10)
  ∧ split_in 1 store10 1%positive 3 0 false
    = Some (inl (ValueError "range() arg 3 must not be zero")).
Proof.
  split; [apply (proj1 (@no_validation_at_call Z))|].
  destruct (proj2 (@no_validation_at_call Z) store10 1%positive range10 3 false)
    as [Hnext Hlist]; [reflexivity|].
  split; [exact Hnext | exact (Hlist 0%nat)].
Defined.


(** * Further properties of the splitter *)

(** ** Each split as a pair of slices of [dates] *)

Section Placement.
Context {A : Type}.
Variables (ds : list A) (tw vw : Z) (fold : bool).
Hypothesis Htw : 0 ≤ tw.
Hypothesis Hvw : 1 ≤ vw.

Local Abbreviation n := (Z.of_nat (length ds)).
Local Abbreviation count := (Z.to_nat (range_length 0 n vw)).
Local Abbreviation splits := (splits_from ds tw vw fold count 0).

(** [ds[lo : lo + len]] *)
Local Abbreviation segment lo len :=
  (take (Z.to_nat len) (drop (Z.to_nat lo) ds)).

Lemma split_at_slices start t v dn :
  0 ≤ start →
  split_at ds tw vw fold start = Some (t, v, dn) →
  t = segment start tw
  ∧ v = if dn then drop (Z.to_nat (start + tw)) ds else segment (start + tw) vw.
Proof.
  intros Hs. unfold split_at.
  pose proof (window_at_eq ds tw vw fold Htw Hvw start Hs) as Hw.
  destruct (window_at ds tw vw fold start) as [w dn'].
  destruct (Z.leb_spec (Z.of_nat (length w)) tw) as [|Hlen]; [done|].
  intros [= <- <- <-].
  rewrite py_slice_upto, py_slice_from by done.
  replace (Z.to_nat (start + tw)) with (Z.to_nat start + Z.to_nat tw)%nat by lia.
  rewrite <- !drop_drop.
  destruct (fold && _); injection Hw as -> ->; [done|].
  rewrite take_take.
  replace (Z.to_nat (tw + vw)) with (Z.to_nat tw + Z.to_nat vw)%nat by lia.
  rewrite <- take_drop_commute. split; [|done]. f_equal. lia.
Qed.

(** The validation slices from [start] on, put end to end, are what is left
    of [ds] after the training slice at [start], provided the range goes far
    enough. *)
Lemma vals_concat m : ∀ start,
  0 ≤ start → n ≤ start + Z.of_nat m * vw →
  concat (splits_from ds tw vw fold m start).*2
  = drop (Z.to_nat (start + tw)) ds.
Proof.
  induction m as [|m IH]; intros start Hs Hcover.
  { cbn. rewrite drop_ge; [done|lia]. }
  cbn [splits_from].
  destruct (split_at ds tw vw fold start) as [[[t v] dn]|] eqn:Hsplit.
  - destruct (split_at_slices _ _ _ _ Hs Hsplit) as [_ ->].
    destruct dn; cbn [fmap list_fmap snd concat].
    + by rewrite app_nil_r.
    + rewrite (IH (start + vw)) by lia.
      replace (Z.to_nat (start + vw + tw))
        with (Z.to_nat (start + tw) + Z.to_nat vw)%nat by lia.
      rewrite <- drop_drop. apply take_drop.
  - apply (split_at_None ds tw vw fold Htw Hvw _ Hs) in Hsplit.
    cbn. rewrite drop_ge; [done|lia].
Qed.

Lemma splits_vals_concat :
  concat splits.*2 = drop (Z.to_nat tw) ds.
Proof.
  pose proof (range_length_covers n vw ltac:(lia) Hvw).
  pose proof (range_length_bounds n vw ltac:(lia)).
  rewrite vals_concat by lia. f_equal.
Qed.

Lemma drop_segment (a lo len : Z) :
  0 ≤ lo → 0 ≤ a ≤ len →
  drop (Z.to_nat a) (segment lo len) = segment (lo + a) (len - a).
Proof.
  intros Hlo Ha.
  replace (Z.to_nat (lo + a)) with (Z.to_nat lo + Z.to_nat a)%nat by lia.
  rewrite <- drop_drop.
  rewrite (take_drop_commute (drop (Z.to_nat lo) ds) (Z.to_nat (len - a)) (Z.to_nat a)).
  do 2 f_equal. lia.
Qed.

Lemma take_segment (a lo len : Z) :
  0 ≤ a ≤ len → take (Z.to_nat a) (segment lo len) = segment lo a.
Proof. intros Ha. rewrite take_take. f_equal. lia. Qed.

(** The [k]-th split, slice by slice. *)
Lemma splits_closed_form k t v :
  splits !! k = Some (t, v) →
  Z.of_nat k * vw + tw < n
  ∧ t = segment (Z.of_nat k * vw) tw
  ∧ ((S k < length splits)%nat → v = segment (Z.of_nat k * vw + tw) vw)
  ∧ (length splits = S k → v = drop (Z.to_nat (Z.of_nat k * vw + tw)) ds).
Proof.
  intros Hk.
  destruct (splits_lookup ds tw vw fold k t v Hk)
    as (dn & Hsplit & Hdone & Hlast & _).
  pose proof (start_nonneg vw Hvw k) as Hstart.
  pose proof (split_at_room ds tw vw fold Htw Hvw _ _ _ _ Hstart Hsplit) as Hroom.
  destruct (split_at_slices _ _ _ _ Hstart Hsplit) as [-> ->].
  split_and!; [done|done|..].
  - intros Hmore. destruct dn; [specialize (Hdone eq_refl); lia|done].
  - intros Hlen. destruct dn; [done|].
    apply take_ge. rewrite length_drop.
    destruct (Hlast Hlen) as [?|[Hcount|Hnone]]; [done|..].
    + pose proof (range_length_covers n vw ltac:(lia) Hvw).
      pose proof (range_length_bounds n vw ltac:(lia)). nia.
    + apply (split_at_None ds tw vw fold Htw Hvw _ (start_nonneg vw Hvw (S k)))
        in Hnone. nia.
Qed.

Lemma splits_nil_iff : splits = [] ↔ n ≤ tw.
Proof.
  split.
  - intros Hnil. pose proof splits_vals_concat as Hcat.
    rewrite Hnil in Hcat. cbn in Hcat. symmetry in Hcat.
    apply (f_equal length) in Hcat. rewrite length_drop in Hcat. cbn in Hcat. lia.
  - intros Hshort. destruct splits as [|[t v] rest] eqn:E; [done|exfalso].
    assert (Hk : splits !! 0%nat = Some (t, v)) by by rewrite E.
    apply splits_closed_form in Hk as (? & _). lia.
Qed.

(** How many splits there are. *)
Lemma splits_count :
  Z.of_nat (length splits)
  = if n <=? tw then 0
    else if fold then Z.max 1 ((n - tw) / vw) else ceil_div (n - tw) vw.
Proof.
  destruct (Z.leb_spec n tw) as [Hshort|Hlong].
  { apply splits_nil_iff in Hshort. by rewrite Hshort. }
  assert (Hne : splits ≠ []) by (rewrite splits_nil_iff; lia).
  destruct (last splits) as [[t v]|] eqn:Hlast;
    [|by apply last_None in Hlast].
  rewrite last_lookup in Hlast.
  pose proof (lookup_lt_Some _ _ _ Hlast) as Hlt.
  set (k := pred (length splits)) in *.
  assert (Hlen : length splits = S k) by lia.
  destruct (splits_lookup ds tw vw fold k t v Hlast)
    as (dn & Hsplit & _ & Hend & _).
  pose proof (start_nonneg vw Hvw k) as Hstart.
  pose proof (split_at_room ds tw vw fold Htw Hvw _ _ _ _ Hstart Hsplit) as Hroom.
  destruct (split_at_Some ds tw vw fold Htw Hvw _ _ _ _ Hstart Hsplit)
    as (Hdn & _).
  rewrite Hlen.
  destruct (decide (fold = true)) as [Hfold|Hfold%not_true_is_false];
    rewrite Hfold; rewrite Hfold in Hdn.
  - (* folding: the last split is the first one whose window is the last *)
    pose proof (splits_last_done ds tw vw fold Htw Hvw k t v dn Hfold Hlast Hlen
                  Hsplit) as ->.
    cbn [andb] in Hdn. symmetry in Hdn. rewrite Z.gtb_ltb, Z.ltb_lt in Hdn.
    pose proof (Z.mul_div_le (n - tw) vw ltac:(lia)).
    pose proof (Z.mul_succ_div_gt (n - tw) vw ltac:(lia)).
    destruct k as [|k']; [nia|].
    assert (Hprev : is_Some (splits !! k')) by (apply lookup_lt_is_Some; lia).
    destruct Hprev as [[t0 v0] Hprev].
    destruct (splits_lookup ds tw vw fold k' t0 v0 Hprev)
      as (dn0 & Hsplit0 & Hdone0 & _).
    destruct (split_at_Some ds tw vw fold Htw Hvw _ _ _ _
                (start_nonneg vw Hvw k') Hsplit0) as (Hdn0 & _).
    destruct dn0; [specialize (Hdone0 eq_refl); lia|].
    rewrite Hfold in Hdn0. cbn [andb] in Hdn0. symmetry in Hdn0.
    rewrite Z.gtb_ltb, Z.ltb_ge in Hdn0. nia.
  - (* no folding: the loop goes on as long as a validation item is left *)
    cbn [andb] in Hdn. subst dn. pose proof (ceil_div_spec (n - tw) vw Hvw).
    assert (n - tw ≤ Z.of_nat (S k) * vw).
    { destruct (Hend Hlen) as [?|[Hcount|Hnone]]; [done|..].
      - pose proof (range_length_covers n vw ltac:(lia) Hvw).
        pose proof (range_length_bounds n vw ltac:(lia)). nia.
      - apply (split_at_None ds tw vw fold Htw Hvw _ (start_nonneg vw Hvw (S k)))
          in Hnone. nia. }
    nia.
Qed.

End Placement.

(** ** What one call of [next] allocates *)

Section Allocation.
Context {A : Type}.
Implicit Types (h : gmap loc (list A)) (g : generator).

Lemma py_getslice_cases h r lo hi (res : exn + loc) h' :
  py_getslice r lo hi h = (res, h') →
  (h' = h ∧ ∃ e, res = inl e)
  ∨ (∃ r' l, res = inr r' ∧ h !! r = Some l ∧ h !! r' = None
             ∧ h' = <[r':=py_slice l lo hi]> h).
Proof.
  unfold py_getslice. destruct (h !! r) as [l|] eqn:Hr.
  - destruct (py_new_ok h (py_slice l lo hi)) as (r' & -> & Hfresh).
    intros [= <- <-]. right. by exists r', l.
  - intros [= <- <-]. left. split; [done|by eexists].
Qed.

(** The store after one pass through the loop body: nothing new, the window
    alone, or the window and the two slices of it. In the last case only
    is there something to yield. *)
Lemma for_iteration_cases g fr h res h' :
  for_iteration g fr h = (res, h') →
  ((h' = h ∨ ∃ w lw, h !! w = None ∧ h' = <[w:=lw]> h)
   ∧ ∀ y, res ≠ inr (Some y))
  ∨ (∃ w lw t lt,
       is_Some (h !! dates g) ∧ h !! w = None ∧ <[w:=lw]> h !! t = None
       ∧ ((h' = <[t:=lt]> (<[w:=lw]> h) ∧ ∀ y, res ≠ inr (Some y))
          ∨ ∃ v lv fr', <[t:=lt]> (<[w:=lw]> h) !! v = None
                        ∧ h' = <[v:=lv]> (<[t:=lt]> (<[w:=lw]> h))
                        ∧ res = inr (Some (t, v, fr')))).
Proof.
  unfold for_iteration.
  destruct (range_next (range_it fr)) as [[start it]|];
    [|intros [= <- <-]; left; split; [by left|done]].
  unfold bind at 1. destruct (py_len (dates g) h) as [[e|n] h0] eqn:Elen;
    pose proof (py_len_frame Elen) as ->;
    [intros [= <- <-]; left; split; [by left|done]|].
  assert (Hd : is_Some (h !! dates g)).
  { unfold py_len in Elen. destruct (h !! dates g); [by eexists|done]. }
  unfold bind at 1.
  set (slice := if fold_incomplete g && _ then _ else _).
  assert (Hslice : ∃ (b : bool) hi,
            slice = bind (py_getslice (dates g) (Some start) hi)
                      (λ w, ret (w, b))).
  { unfold slice. destruct (fold_incomplete g && _); by eexists _, _. }
  destruct Hslice as (b & hi & ->). unfold bind at 1.
  destruct (py_getslice (dates g) (Some start) hi h) as [res1 h1] eqn:Ew.
  apply py_getslice_cases in Ew
    as [[-> [e ->]]|(w & l & -> & _ & Hw & ->)];
    [intros [= <- <-]; left; split; [by left|done]|].
  unfold ret at 1. unfold bind at 1.
  set (lw := py_slice l _ _). set (h1 := <[w:=lw]> h).
  destruct (py_len w h1) as [[e|m] h1'] eqn:Elen1;
    pose proof (py_len_frame Elen1) as ->;
    [intros [= <- <-]; left; split; [right; by eexists _, _|done]|].
  destruct (m <=? train_window g);
    [intros [= <- <-]; left; split; [right; by eexists _, _|done]|].
  unfold bind at 1.
  destruct (py_getslice w None (Some (train_window g)) h1) as [res2 h2] eqn:Et.
  apply py_getslice_cases in Et
    as [[-> [e ->]]|(t & l2 & -> & _ & Ht & ->)];
    [intros [= <- <-]; left; split; [right; by eexists _, _|done]|].
  set (lt := py_slice l2 _ _). set (h2 := <[t:=lt]> h1).
  unfold bind at 1.
  destruct (py_getslice w (Some (train_window g)) None h2) as [res3 h3] eqn:Ev.
  intros Hres. right. exists w, lw, t, lt. split_and!; [done..|].
  apply py_getslice_cases in Ev
    as [[-> [e ->]]|(v & l3 & -> & _ & Hv & ->)]; injection Hres as <- <-.
  - by left.
  - right. by eexists v, _, _.
Qed.

Lemma resume_cases g h res h' :
  resume g h = (res, h') →
  (h' = h ∧ ∀ y, res ≠ inr (Some y))
  ∨ ∃ fr, for_iteration g fr h = (res, h').
Proof.
  unfold resume. destruct (pc g) as [|fr|].
  - unfold bind at 1. destruct (py_len (dates g) h) as [[e|n] h0] eqn:Elen;
      pose proof (py_len_frame Elen) as ->;
      [intros [= <- <-]; by left|].
    unfold bind at 1, lift.
    destruct (py_range 0 n (val_window g)) as [e|it];
      [intros [= <- <-]; by left|].
    unfold ret at 1. intros Hfor. right. by eexists.
  - destruct (done_flag fr); [intros [= <- <-]; by left|].
    intros Hfor. right. by eexists.
  - intros [= <- <-]. by left.
Qed.

End Allocation.

(** ** With and without [fold_incomplete] *)

Section Folding.
Context {A : Type}.
Variables (ds : list A) (tw vw : Z).
Hypothesis Htw : 0 ≤ tw.
Hypothesis Hvw : 1 ≤ vw.

Local Abbreviation n := (Z.of_nat (length ds)).
Local Abbreviation count := (Z.to_nat (range_length 0 n vw)).
Local Abbreviation folded := (splits_from ds tw vw true count 0).
Local Abbreviation unfolded := (splits_from ds tw vw false count 0).

Lemma splits_from_drop fold m : ∀ start k,
  (k < length (splits_from ds tw vw fold m start))%nat →
  drop k (splits_from ds tw vw fold m start)
  = splits_from ds tw vw fold (m - k) (start + Z.of_nat k * vw).
Proof.
  induction m as [|m IH]; intros start k; [cbn; lia|].
  destruct k as [|k].
  { intros _. rewrite drop_0. f_equal; lia. }
  cbn [splits_from].
  destruct (split_at ds tw vw fold start) as [[[t v] dn]|]; [|cbn; lia].
  destruct dn; cbn [length drop]; [lia|]. intros Hk.
  rewrite IH by lia. f_equal; lia.
Qed.

Lemma folded_length_le : (length folded ≤ length unfolded)%nat.
Proof.
  pose proof (splits_count ds tw vw true Htw Hvw) as Ht.
  pose proof (splits_count ds tw vw false Htw Hvw) as Hf.
  destruct (Z.leb_spec n tw); [lia|].
  pose proof (ceil_div_spec (n - tw) vw Hvw).
  pose proof (Z.mul_div_le (n - tw) vw ltac:(lia)). nia.
Qed.

Lemma folded_lookup k t v :
  folded !! k = Some (t, v) →
  ∃ v', unfolded !! k = Some (t, v')
        ∧ ((S k < length folded)%nat → v' = v)
        ∧ (length folded = S k → v = concat (drop k unfolded).*2).
Proof.
  intros Hk. pose proof (lookup_lt_Some _ _ _ Hk) as Hlt.
  pose proof folded_length_le as Hle.
  destruct (lookup_lt_is_Some_2 unfolded k ltac:(lia)) as [[t' v'] Hk'].
  destruct (splits_closed_form ds tw vw true Htw Hvw k t v Hk)
    as (_ & -> & Hmid & Hlast).
  destruct (splits_closed_form ds tw vw false Htw Hvw k t' v' Hk')
    as (_ & -> & Hmid' & _).
  exists v'. split_and!; [done|..].
  - intros Hmore. by rewrite Hmid, Hmid' by lia.
  - intros Hlen. rewrite (Hlast Hlen).
    rewrite splits_from_drop by lia.
    pose proof (splits_from_length ds tw vw false count 0).
    pose proof (range_length_covers n vw ltac:(lia) Hvw).
    pose proof (range_length_bounds n vw ltac:(lia)).
    rewrite (vals_concat ds tw vw false Htw Hvw) by nia.
    f_equal; lia.
Qed.

Lemma folded_eq_unfolded : (n - tw) `mod` vw = 0 → folded = unfolded.
Proof.
  intros Hmod.
  pose proof (splits_count ds tw vw true Htw Hvw) as Ht.
  pose proof (splits_count ds tw vw false Htw Hvw) as Hf.
  cbv beta iota in Ht, Hf.
  assert (Hlen : length folded = length unfolded).
  { destruct (Z.leb_spec n tw); [lia|].
    pose proof (ceil_div_spec (n - tw) vw Hvw).
    pose proof (Z.div_mod (n - tw) vw ltac:(lia)). nia. }
  apply (list_eq_same_length _ _ (length unfolded)); [done..|].
  intros k [t v] [t' v'] Hlt Hk Hk'.
  destruct (splits_closed_form ds tw vw true Htw Hvw k t v Hk)
    as (_ & -> & Hmid & Hlast).
  destruct (splits_closed_form ds tw vw false Htw Hvw k t' v' Hk')
    as (_ & -> & Hmid' & Hlast').
  f_equal. destruct (decide (S k < length unfolded)%nat).
  - by rewrite Hmid, Hmid' by lia.
  - by rewrite Hlast, Hlast' by lia.
Qed.

End Folding.

(** ** Further properties, stated on runs of the generator *)

Section SplitterProperties.
Context {A : Type}.
Implicit Types (h : gmap loc (list A)) (d : loc) (ds : list A).

(** X1. With [train_window >= 0] and [val_window >= 1], the validation slices
    put end to end, in the order they are yielded, are exactly
    [dates[train_window:]]: every item after the first training window is
    validated once and once only, with or without [fold_incomplete]. *)
Theorem validation_slices_tile fuel h d ds tw vw fold :
  h !! d = Some ds → 0 ≤ tw → 1 ≤ vw → (length ds < fuel)%nat →
  ∃ splits,
    split_in fuel h d tw vw fold = Some (inr splits)
    ∧ concat splits.*2 = drop (Z.to_nat tw) ds.
Proof.
  intros Hd Htw Hvw Hfuel. eexists. split; [by apply split_in_pos|].
  by apply splits_vals_concat.
Qed.

(** X2. Successive training slices slide by [val_window]: what is left of a
    training slice after its first [val_window] items is the beginning, of
    length [train_window - val_window], of the next one (both are empty when
    [val_window >= train_window]). *)
Theorem training_slices_slide fuel h d ds tw vw fold :
  h !! d = Some ds → 0 ≤ tw → 1 ≤ vw → (length ds < fuel)%nat →
  ∃ splits,
    split_in fuel h d tw vw fold = Some (inr splits)
    ∧ ∀ k t v t' v',
        splits !! k = Some (t, v) → splits !! S k = Some (t', v') →
        drop (Z.to_nat vw) t = take (Z.to_nat (tw - vw)) t'.
Proof.
  intros Hd Htw Hvw Hfuel. eexists. split; [by apply split_in_pos|].
  intros k t v t' v' Hk Hk'.
  destruct (splits_closed_form ds tw vw fold Htw Hvw k t v Hk) as (_ & -> & _).
  destruct (splits_closed_form ds tw vw fold Htw Hvw (S k) t' v' Hk')
    as (_ & -> & _).
  pose proof (start_nonneg vw Hvw k).
  destruct (Z.le_gt_cases vw tw) as [Hle|Hgt].
  - rewrite drop_segment, take_segment by lia. do 2 f_equal. lia.
  - rewrite drop_ge by (rewrite length_take; lia).
    replace (Z.to_nat (tw - vw)) with 0%nat by lia. done.
Qed.

(** X3. A training slice never reaches beyond the validation slice of the
    split before it: the two end at the same item. When
    [val_window <= train_window] the previous validation slice is the last
    [val_window] items of the training slice; otherwise the training slice is
    the last [train_window] items of that validation slice. *)
Theorem training_ends_with_previous_validation fuel h d ds tw vw fold :
  h !! d = Some ds → 0 ≤ tw → 1 ≤ vw → (length ds < fuel)%nat →
  ∃ splits,
    split_in fuel h d tw vw fold = Some (inr splits)
    ∧ ∀ k t v t' v',
        splits !! k = Some (t, v) → splits !! S k = Some (t', v') →
        drop (Z.to_nat (tw - vw)) t' = drop (Z.to_nat (vw - tw)) v.
Proof.
  intros Hd Htw Hvw Hfuel. eexists. split; [by apply split_in_pos|].
  intros k t v t' v' Hk Hk'.
  pose proof (lookup_lt_Some _ _ _ Hk') as Hlt.
  destruct (splits_closed_form ds tw vw fold Htw Hvw k t v Hk)
    as (_ & _ & Hmid & _). rewrite (Hmid Hlt).
  destruct (splits_closed_form ds tw vw fold Htw Hvw (S k) t' v' Hk')
    as (_ & -> & _).
  pose proof (start_nonneg vw Hvw k).
  destruct (Z.le_gt_cases vw tw) as [Hle|Hgt].
  - replace (Z.to_nat (vw - tw)) with (Z.to_nat 0) by lia.
    rewrite !drop_segment by lia. f_equal; [|f_equal]; lia.
  - replace (Z.to_nat (tw - vw)) with (Z.to_nat 0) by lia.
    rewrite !drop_segment by lia. f_equal; [|f_equal]; lia.
Qed.

(** X4. The number of splits. Nothing is yielded when [dates] has at most
    [train_window] items. Otherwise, with [m = len(dates) - train_window],
    there are [ceil(m / val_window)] splits without [fold_incomplete], and
    [max(1, m // val_window)] with it. *)
Theorem number_of_splits fuel h d ds tw vw fold :
  h !! d = Some ds → 0 ≤ tw → 1 ≤ vw → (length ds < fuel)%nat →
  ∃ splits,
    split_in fuel h d tw vw fold = Some (inr splits)
    ∧ Z.of_nat (length splits)
      = if Z.of_nat (length ds) <=? tw then 0
        else if fold then Z.max 1 ((Z.of_nat (length ds) - tw) / vw)
             else ceil_div (Z.of_nat (length ds) - tw) vw.
Proof.
  intros Hd Htw Hvw Hfuel. eexists. split; [by apply split_in_pos|].
  by apply splits_count.
Qed.

(** X5. Folding only merges the end of the unfolded run. Every split of the
    folded run has the training slice of the split with the same index in
    the unfolded run; it has the same validation slice too, unless it is the
    last one, whose validation slice is the validation slices of the
    unfolded run from that index on, put end to end. *)
Theorem folding_merges_the_tail fuel h d ds tw vw :
  h !! d = Some ds → 0 ≤ tw → 1 ≤ vw → (length ds < fuel)%nat →
  ∃ folded unfolded,
    split_in fuel h d tw vw true = Some (inr folded)
    ∧ split_in fuel h d tw vw false = Some (inr unfolded)
    ∧ ∀ k t v, folded !! k = Some (t, v) →
        ∃ v', unfolded !! k = Some (t, v')
              ∧ ((S k < length folded)%nat → v' = v)
              ∧ (length folded = S k → v = concat (drop k unfolded).*2).
Proof.
  intros Hd Htw Hvw Hfuel. eexists _, _.
  split; [by apply split_in_pos|]. split; [by apply split_in_pos|].
  by apply folded_lookup.
Qed.

(** X6. When [len(dates) - train_window] is a multiple of [val_window], there
    is no incomplete validation slice and [fold_incomplete] changes
    nothing. *)
Theorem folding_without_remainder fuel h d ds tw vw :
  h !! d = Some ds → 0 ≤ tw → 1 ≤ vw → (length ds < fuel)%nat →
  (Z.of_nat (length ds) - tw) `mod` vw = 0 →
  split_in fuel h d tw vw true = split_in fuel h d tw vw false
  ∧ is_Some (split_in fuel h d tw vw true).
Proof.
  intros Hd Htw Hvw Hfuel Hmod.
  rewrite !(split_in_pos ds) by done.
  by rewrite folded_eq_unfolded.
Qed.

(** X7. A negative [val_window] is not rejected: the range of starts is
    empty, and the run ends at once with no split and no exception, whatever
    [train_window] and [fold_incomplete]. *)
Theorem negative_val_window_yields_nothing fuel h d ds tw vw fold :
  h !! d = Some ds → vw < 0 → (length ds < fuel)%nat →
  split_in fuel h d tw vw fold = Some (inr []).
Proof.
  intros Hd Hvw Hfuel. rewrite (split_in_sim ds) by done.
  unfold split_values, py_range, range_length.
  destruct (Z.eqb_spec vw 0); [lia|].
  destruct (Z.ltb_spec 0 vw); [lia|].
  by destruct (Z.ltb_spec (Z.of_nat (length ds)) 0); [lia|].
Qed.

(** X8. The two lists of a yielded pair are new objects: they were not in
    the store before the call of [next], they are not [dates], and they are
    not one another. Changing one of them in place therefore changes neither
    [dates] nor the other. *)
Theorem yielded_lists_are_new (g : generator) h t v g' h' :
  gen_next g h = (Yield t v, g', h') →
  h !! t = None ∧ h !! v = None
  ∧ t ≠ dates g ∧ v ≠ dates g ∧ t ≠ v
  ∧ is_Some (h' !! t) ∧ is_Some (h' !! v).
Proof.
  unfold gen_next.
  destruct (resume g h) as [[e|[[[t0 v0] fr]|]] h1] eqn:Eres; intros [= <- <- _ <-].
  apply resume_cases in Eres as [[_ Hno]|[fr0 Hfor]]; [by destruct (Hno (t0, v0, fr))|].
  apply for_iteration_cases in Hfor
    as [[_ Hno]|(w & lw & t & lt & Hd & Hw & Ht & Hrest)];
    [by destruct (Hno (t0, v0, fr))|].
  destruct Hrest as [[_ Hno]|(v & lv & fr' & Hv & -> & [= -> -> _])];
    [by destruct (Hno (t0, v0, fr))|].
  assert (t ≠ w) by (intros ->; by rewrite lookup_insert_eq in Ht).
  assert (v ≠ t) by (intros ->; by rewrite lookup_insert_eq in Hv).
  assert (v ≠ w).
  { intros ->. rewrite lookup_insert_ne, lookup_insert_eq in Hv; done. }
  rewrite lookup_insert_ne in Ht by done.
  rewrite !lookup_insert_ne in Hv by done.
  split_and!; [done|done|..|done| |].
  - intros ->. rewrite Ht in Hd. by destruct Hd.
  - intros ->. rewrite Hv in Hd. by destruct Hd.
  - rewrite lookup_insert_ne, lookup_insert_eq; done.
  - by rewrite lookup_insert_eq.
Qed.

(** X9. The generator is lazy: one call of [next] runs at most one pass
    through the loop body, and so adds at most three lists to the store (the
    window and its two slices), however long [dates] is. *)
Theorem next_allocates_at_most_three (g : generator) h :
  (size (gen_next g h).2 ≤ size h + 3)%nat.
Proof.
  unfold gen_next.
  destruct (resume g h) as [res h1] eqn:Eres.
  assert (Hsize : (size h1 ≤ size h + 3)%nat).
  { apply resume_cases in Eres as [[-> _]|[fr0 Hfor]]; [lia|].
    apply for_iteration_cases in Hfor
      as [[[->|(w & lw & Hw & ->)] _]|(w & lw & t & lt & _ & Hw & Ht & Hrest)].
    - lia.
    - rewrite map_size_insert_None by done. lia.
    - destruct Hrest as [[-> _]|(v & lv & fr' & Hv & -> & _)];
        rewrite !map_size_insert_None by done; lia. }
  by destruct res as [e|[[[t v] fr]|]].
Qed.

End SplitterProperties.

(** * The trading calendar *)

(** ** Finding a value in a column *)

Lemma arg_true_from_absent (x : Z) (col : list Z) (k : nat) :
  x ∉ col → arg_true_from k ((λ y, bool_decide (y = x)) <$> col) = [].
Proof.
  revert k. induction col as [|y col IH]; intros k Hx; [done|].
  apply not_elem_of_cons in Hx as [Hne Hx]. cbn.
  rewrite bool_decide_eq_false_2 by done. by apply IH.
Qed.

Lemma arg_true_from_unique (x : Z) (col : list Z) (k i : nat) :
  NoDup col → col !! i = Some x →
  arg_true_from k ((λ y, bool_decide (y = x)) <$> col) = [(k + i)%nat].
Proof.
  intros Hdup. revert k i.
  induction Hdup as [|y col Hy Hdup IH]; intros k i Hi; [done|].
  destruct i as [|i]; cbn in *.
  - injection Hi as ->. rewrite bool_decide_eq_true_2 by done.
    rewrite arg_true_from_absent by done. cbn. f_equal. lia.
  - rewrite bool_decide_eq_false_2.
    + rewrite (IH (S k) i Hi). cbn. f_equal. lia.
    + intros ->. apply Hy. by eapply list_elem_of_lookup_2.
Qed.

Lemma arg_true_from_lookup (x : Z) (col : list Z) (k i : nat) :
  i ∈ arg_true_from k ((λ y, bool_decide (y = x)) <$> col) →
  (k ≤ i)%nat ∧ col !! (i - k)%nat = Some x.
Proof.
  revert k. induction col as [|y col IH]; intros k; cbn.
  { by intros ?%elem_of_nil. }
  intros [Hhere|Hlater]%elem_of_app.
  - destruct (bool_decide_reflect (y = x)) as [->|]; [|by apply elem_of_nil in Hhere].
    apply list_elem_of_singleton in Hhere as ->.
    split; [lia|]. by replace (k - k)%nat with 0%nat by lia.
  - apply IH in Hlater as [Hle Hi]. split; [lia|].
    by replace (i - k)%nat with (S (i - S k)) by lia.
Qed.

Lemma item_arg_true_found (x : Z) (col : list Z) (i : nat) :
  item (arg_true ((λ y, bool_decide (y = x)) <$> col)) = inr i →
  col !! i = Some x.
Proof.
  unfold item. intros Hitem.
  destruct (arg_true _) as [|j [|]] eqn:E; try done.
  injection Hitem as ->.
  destruct (arg_true_from_lookup x col 0 i) as [_ Hi].
  { unfold arg_true in E. rewrite E. apply list_elem_of_here. }
  by rewrite Nat.sub_0_r in Hi.
Qed.

Lemma item_arg_true_unique (x : Z) (col : list Z) (i : nat) :
  NoDup col → col !! i = Some x →
  item (arg_true ((λ y, bool_decide (y = x)) <$> col)) = inr i.
Proof.
  intros Hdup Hi. unfold arg_true. by rewrite (arg_true_from_unique x col 0 i).
Qed.

Lemma item_arg_true_absent (x : Z) (col : list Z) :
  x ∉ col →
  item (arg_true ((λ y, bool_decide (y = x)) <$> col)) = inl (NotOneRow 0).
Proof. intros Hx. unfold arg_true. by rewrite arg_true_from_absent. Qed.

Lemma series_getitem_nonneg (series : list Z) (i : Z) :
  0 ≤ i →
  series_getitem series i
  = match series !! Z.to_nat i with
    | Some x => inr x
    | None => inl (IndexError i)
    end.
Proof.
  intros Hi. unfold series_getitem.
  destruct (Z.ltb_spec i 0); [lia|]. by destruct (Z.ltb_spec i 0); [lia|].
Qed.

Lemma sublist_fmap {X Y : Type} (f : X → Y) (l1 l2 : list X) :
  l1 `sublist_of` l2 → f <$> l1 `sublist_of` f <$> l2.
Proof. induction 1; cbn; by constructor. Qed.

Lemma filter_all {X : Type} (P : X → Prop) `{!∀ x, Decision (P x)} (l : list X) :
  Forall P l → filter P l = l.
Proof.
  induction 1 as [|x l Hx _ IH]; [done|]. by rewrite filter_cons_True, IH.
Qed.

Lemma filter_none {X : Type} (P : X → Prop) `{!∀ x, Decision (P x)} (l : list X) :
  Forall (λ x, ¬ P x) l → filter P l = [].
Proof.
  induction 1 as [|x l Hx _ IH]; [done|]. by rewrite filter_cons_False.
Qed.

Lemma sublist_StronglySorted {X : Type} (R : relation X) (l1 l2 : list X) :
  l1 `sublist_of` l2 → StronglySorted R l2 → StronglySorted R l1.
Proof.
  induction 1 as [|x l1 l2 Hsub IH|x l1 l2 Hsub IH]; intros Hsorted; [done|..].
  - apply StronglySorted_inv in Hsorted as [Hsorted Hall].
    constructor; [by apply IH|].
    apply Forall_forall. intros y Hy. rewrite Forall_forall in Hall.
    apply Hall. by eapply elem_of_sublist.
  - apply StronglySorted_inv in Hsorted as [Hsorted _]. by apply IH.
Qed.

Lemma filter_iff_Forall {X : Type} (P Q : X → Prop)
    `{!∀ x, Decision (P x), !∀ x, Decision (Q x)} (l : list X) :
  Forall (λ x, P x ↔ Q x) l → filter P l = filter Q l.
Proof.
  induction 1 as [|x l Hx _ IH]; [done|]. rewrite !filter_cons, IH.
  destruct (decide (P x)), (decide (Q x)); tauto.
Qed.

(** Filtering rows sorted by date on a range of dates, in two parts. *)
Lemma filter_range_split (Q : cal_row → Prop) `{!∀ r, Decision (Q r)}
    (l : list cal_row) (lo mid hi : Z) :
  StronglySorted Z.le (TradeDate <$> l) → lo - 1 ≤ mid ≤ hi →
  filter (λ r, lo ≤ TradeDate r ≤ hi ∧ Q r) l
  = filter (λ r, lo ≤ TradeDate r ≤ mid ∧ Q r) l
    ++ filter (λ r, mid + 1 ≤ TradeDate r ≤ hi ∧ Q r) l.
Proof.
  intros Hsorted Hmid. induction l as [|r l IH]; [done|].
  cbn [fmap list_fmap] in Hsorted.
  apply StronglySorted_inv in Hsorted as [Hsorted Hall].
  destruct (Z.le_gt_cases (TradeDate r) mid) as [Hle|Hgt].
  - rewrite (filter_cons_False (λ r, mid + 1 ≤ TradeDate r ≤ hi ∧ Q r)) by lia.
    destruct (decide (lo ≤ TradeDate r ∧ Q r)) as [Hr|Hr].
    + rewrite !filter_cons_True by (split; [lia|tauto]). by rewrite (IH Hsorted).
    + rewrite !filter_cons_False by (intros [? ?]; apply Hr; split; [lia|done]).
      by rewrite (IH Hsorted).
  - assert (Hlate : Forall (λ x, mid < TradeDate x) (r :: l)).
    { constructor; [lia|]. apply Forall_forall. intros x Hx.
      rewrite Forall_forall in Hall.
      specialize (Hall (TradeDate x) ltac:(by apply list_elem_of_fmap_2)). lia. }
    rewrite (filter_none (λ r, lo ≤ TradeDate r ≤ mid ∧ Q r)).
    + apply filter_iff_Forall. eapply Forall_impl; [exact Hlate|].
      cbn. intros x Hx. split; intros [? ?]; (split; [lia|done]).
    + eapply Forall_impl; [exact Hlate|]. cbn. intros x Hx [? ?]. lia.
Qed.

Lemma filter_fmap {X Y : Type} (f : X → Y) (P : Y → Prop)
    `{!∀ y, Decision (P y)} (l : list X) :
  filter P (f <$> l) = f <$> filter (λ x, P (f x)) l.
Proof.
  induction l as [|x l IH]; [done|]. cbn [fmap list_fmap].
  rewrite !filter_cons, IH. by destruct (decide (P (f x))).
Qed.

Lemma sorted_lookup_lt (l : list Z) (a b : nat) (x y : Z) :
  StronglySorted Z.lt l → l !! a = Some x → l !! b = Some y →
  (a < b)%nat → x < y.
Proof.
  intros Hsorted. revert a b.
  induction Hsorted as [|z l Hsorted IH Hall]; intros a b Ha Hb Hab; [done|].
  destruct b as [|b]; [lia|]. destruct a as [|a]; cbn in *.
  - injection Ha as ->. rewrite Forall_forall in Hall.
    apply Hall. by eapply list_elem_of_lookup_2.
  - apply (IH a b); [done..|lia].
Qed.

(** In a strictly increasing list, the items between two of its items are a
    segment of it. *)
Lemma filter_between_sorted (l : list Z) (i k : nat) (x y : Z) :
  StronglySorted Z.lt l → l !! i = Some x → l !! (i + k)%nat = Some y →
  filter (λ z, x ≤ z ≤ y) l = take (S k) (drop i l).
Proof.
  intros Hsorted Hx Hy.
  rewrite <- (take_drop i l) at 1.
  rewrite <- (take_drop (S k) (drop i l)) at 1.
  rewrite !filter_app.
  rewrite (filter_none _ (take i l)), (filter_all _ (take (S k) (drop i l))),
    (filter_none _ (drop (S k) (drop i l))); [by rewrite app_nil_r|..].
  - apply Forall_forall. intros z [j Hj]%list_elem_of_lookup_1.
    rewrite lookup_drop, lookup_drop in Hj.
    pose proof (sorted_lookup_lt l (i + k) (i + (S k + j)) y z Hsorted Hy Hj). lia.
  - apply Forall_forall. intros z [j Hj]%list_elem_of_lookup_1.
    apply lookup_take_Some in Hj as [Hj Hlt]. rewrite lookup_drop in Hj.
    split.
    + destruct j as [|j]; [rewrite Nat.add_0_r in Hj; by simplify_eq|].
      pose proof (sorted_lookup_lt l i (i + S j) x z Hsorted Hx Hj). lia.
    + destruct (decide (j = k)) as [->|]; [by simplify_eq|].
      pose proof (sorted_lookup_lt l (i + j) (i + k) z y Hsorted Hj Hy). lia.
  - apply Forall_forall. intros z [j Hj]%list_elem_of_lookup_1.
    apply lookup_take_Some in Hj as [Hj Hlt].
    pose proof (sorted_lookup_lt l j i z x Hsorted Hj Hx). lia.
Qed.

(** ** The two calendar functions in normal form *)

Section CalendarFacts.
Variable read_calendar : string → list cal_row.

(** What the two flags ask of a row. *)
Local Abbreviation passes excl incl :=
  (λ r : cal_row, (excl = true → isValid r = 1) ∧ (incl = false → isHalfDay r = 0)).

(** The date column after the two flag filters. *)
Local Abbreviation column exchange excl incl :=
  (TradeDate <$> filter (passes excl incl) (read_calendar exchange)).

Lemma flag_filters (excl incl : bool) (l : list cal_row) :
  (if negb incl
   then filter (λ r, isHalfDay r = 0)
          (if excl then filter (λ r, isValid r = 1) l else l)
   else if excl then filter (λ r, isValid r = 1) l else l)
  = filter (passes excl incl) l.
Proof.
  destruct excl, incl; cbn [negb].
  - apply list_filter_iff. intros r. intuition congruence.
  - rewrite list_filter_filter. apply list_filter_iff. intros r. intuition congruence.
  - symmetry. apply filter_all, Forall_forall. intros r _. intuition congruence.
  - apply list_filter_iff. intros r. intuition congruence.
Qed.

Lemma get_date_list_eq start_date end_date exchange excl incl :
  get_date_list read_calendar start_date end_date exchange excl incl
  = TradeDate <$>
      filter (λ r, start_date ≤ TradeDate r ≤ end_date ∧ passes excl incl r)
        (read_calendar exchange).
Proof.
  unfold get_date_list. cbv zeta. rewrite flag_filters, list_filter_filter.
  f_equal. apply list_filter_iff. intros r. tauto.
Qed.

Lemma get_date_by_offset_eq run_date offset exchange excl incl :
  get_date_by_offset read_calendar run_date offset exchange excl incl
  = match item (arg_true ((λ y, bool_decide (y = run_date))
                            <$> column exchange excl incl)) with
    | inl e => inl e
    | inr idx0 =>
        series_getitem (column exchange excl incl) (Z.of_nat idx0 + offset)
    end.
Proof.
  unfold get_date_by_offset. cbv zeta. rewrite flag_filters.
  by rewrite <- list_fmap_compose.
Qed.

Lemma column_sublist exchange excl incl :
  column exchange excl incl `sublist_of` TradeDate <$> read_calendar exchange.
Proof. apply sublist_fmap, sublist_filter. Qed.

(** Over a range that covers the calendar, [get_date_list] is the whole
    column. *)
Lemma get_date_list_whole lo hi exchange excl incl :
  (∀ r, r ∈ read_calendar exchange → lo ≤ TradeDate r ≤ hi) →
  get_date_list read_calendar lo hi exchange excl incl
  = column exchange excl incl.
Proof.
  intros Hcover. rewrite get_date_list_eq.
  rewrite <- list_filter_filter, (filter_all (λ r, lo ≤ TradeDate r ≤ hi)); [done|].
  apply Forall_forall. intros r Hr%list_elem_of_filter. apply Hcover, Hr.
Qed.

Lemma series_getitem_elem (series : list Z) (i d : Z) :
  series_getitem series i = inr d → d ∈ series.
Proof.
  unfold series_getitem. destruct (_ <? 0); [done|].
  destruct (series !! _) as [x|] eqn:Hx; [|done].
  intros [= <-]. by eapply list_elem_of_lookup_2.
Qed.

Lemma column_elem exchange excl incl d :
  d ∈ column exchange excl incl
  ↔ ∃ r, r ∈ read_calendar exchange ∧ TradeDate r = d ∧ passes excl incl r.
Proof.
  rewrite list_elem_of_fmap. split.
  - intros (r & -> & [Hr Hin]%list_elem_of_filter). by exists r.
  - intros (r & Hin & <- & Hr). exists r. split; [done|].
    by apply list_elem_of_filter.
Qed.

Lemma column_NoDup exchange excl incl :
  NoDup (TradeDate <$> read_calendar exchange) →
  NoDup (column exchange excl incl).
Proof. intros Hdup. eapply sublist_NoDup; [done|apply column_sublist]. Qed.

(** When the date column has no repetition, [get_date_by_offset] reads the
    column at the position of [run_date] plus [offset]. *)
Lemma get_date_by_offset_at run_date offset exchange excl incl (i : nat) :
  NoDup (column exchange excl incl) →
  column exchange excl incl !! i = Some run_date →
  get_date_by_offset read_calendar run_date offset exchange excl incl
  = series_getitem (column exchange excl incl) (Z.of_nat i + offset).
Proof.
  intros Hdup Hi. rewrite get_date_by_offset_eq.
  by rewrite (item_arg_true_unique run_date _ i Hdup Hi).
Qed.

(** When it returns a date for an offset that is not negative, that date is
    [offset] places after [run_date] in the column. *)
Lemma get_date_by_offset_forward run_date offset exchange excl incl d :
  0 ≤ offset →
  get_date_by_offset read_calendar run_date offset exchange excl incl = inr d →
  ∃ i : nat,
    column exchange excl incl !! i = Some run_date
    ∧ column exchange excl incl !! (i + Z.to_nat offset)%nat = Some d.
Proof.
  intros Hoff. rewrite get_date_by_offset_eq.
  destruct (item _) as [e|i] eqn:Hitem; [done|].
  apply item_arg_true_found in Hitem.
  rewrite series_getitem_nonneg by lia.
  destruct (_ !! Z.to_nat _) as [x|] eqn:Hx; [|done].
  intros [= <-]. exists i. split; [done|].
  by replace (i + Z.to_nat offset)%nat with (Z.to_nat (Z.of_nat i + offset)) by lia.
Qed.

End CalendarFacts.

(** ** Properties of the two calendar functions *)

Section CalendarProperties.
Variable read_calendar : string → list cal_row.
Implicit Types (exchange : string) (excl incl : bool).


(** X12. [get_date_list] never reorders: its result is the date column of
    the calendar with some entries left out. In particular it is strictly
    increasing when the calendar is. *)
Theorem get_date_list_keeps_order start_date end_date exchange excl incl :
  get_date_list read_calendar start_date end_date exchange excl incl
    `sublist_of` TradeDate <$> read_calendar exchange
  ∧ (StronglySorted Z.lt (TradeDate <$> read_calendar exchange) →
     StronglySorted Z.lt
       (get_date_list read_calendar start_date end_date exchange excl incl)).
Proof.
  assert (Hsub : get_date_list read_calendar start_date end_date exchange excl incl
                   `sublist_of` TradeDate <$> read_calendar exchange).
  { rewrite get_date_list_eq. apply sublist_fmap, sublist_filter. }
  split; [done|]. by apply sublist_StronglySorted.
Qed.

(** X13. On a calendar sorted by date, a range of dates can be queried in
    two parts: the dates from [start_date] to [end_date] are those up to
    [mid] followed by those from [mid + 1] on. *)
Theorem get_date_list_splits_range start_date mid end_date exchange excl incl :
  StronglySorted Z.le (TradeDate <$> read_calendar exchange) →
  start_date - 1 ≤ mid ≤ end_date →
  get_date_list read_calendar start_date end_date exchange excl incl
  = get_date_list read_calendar start_date mid exchange excl incl
    ++ get_date_list read_calendar (mid + 1) end_date exchange excl incl.
Proof.
  intros Hsorted Hmid. rewrite !get_date_list_eq, <- fmap_app. f_equal.
  by apply filter_range_split.
Qed.

(** X14. A date returned by [get_date_by_offset] passes the filters it was
    called with: [get_date_list] with the same flags returns it. *)
Theorem offset_date_passes_filters run_date offset exchange excl incl (d : Z) :
  get_date_by_offset read_calendar run_date offset exchange excl incl = inr d →
  d ∈ get_date_list read_calendar d d exchange excl incl.
Proof.
  rewrite get_date_by_offset_eq. destruct (item _) as [e|i]; [done|].
  intros Hd%series_getitem_elem.
  apply column_elem in Hd as (r & Hin & <- & Hr).
  rewrite get_date_list_eq. apply list_elem_of_fmap. exists r. split; [done|].
  apply list_elem_of_filter. split; [|done]. split; [lia|done].
Qed.

(** X15. When [run_date] is not a date that [get_date_list] returns with the
    same flags (it is not in the calendar, or it is filtered out),
    [get_date_by_offset] fails on [item()], with no row found, whatever the
    offset: it never moves to a neighbouring date. *)
Theorem offset_of_missing_date_fails run_date offset exchange excl incl :
  run_date ∉ get_date_list read_calendar run_date run_date exchange excl incl →
  get_date_by_offset read_calendar run_date offset exchange excl incl
  = inl (NotOneRow 0).
Proof.
  intros Hmissing. rewrite get_date_by_offset_eq.
  rewrite item_arg_true_absent; [done|].
  intros (r & Hin & Hdate & Hr)%column_elem. apply Hmissing.
  rewrite get_date_list_eq. apply list_elem_of_fmap. exists r. split; [done|].
  apply list_elem_of_filter. split; [|done]. split; [lia|done].
Qed.


(** X17. On a calendar without repeated dates, going [offset >= 0] trading
    days forward and then as many back returns to [run_date]. *)
Theorem offset_round_trip run_date offset exchange excl incl (d : Z) :
  NoDup (TradeDate <$> read_calendar exchange) → 0 ≤ offset →
  get_date_by_offset read_calendar run_date offset exchange excl incl = inr d →
  get_date_by_offset read_calendar d (- offset) exchange excl incl = inr run_date.
Proof.
  intros Hdup Hoff Hd.
  apply get_date_by_offset_forward in Hd as (i & Hrun & Hd); [|done].
  rewrite (get_date_by_offset_at _ _ _ _ _ _ _ (column_NoDup _ _ _ _ Hdup) Hd).
  rewrite series_getitem_nonneg by lia.
  replace (Z.to_nat (Z.of_nat (i + Z.to_nat offset) + - offset)) with i by lia.
  by rewrite Hrun.
Qed.

(** X18. On a calendar without repeated dates, offsets add up: from the date
    found [a >= 0] trading days after [run_date], an offset [b] gives what
    the offset [a + b] gives from [run_date]. *)
Theorem offset_compose run_date a b exchange excl incl (d : Z) :
  NoDup (TradeDate <$> read_calendar exchange) → 0 ≤ a →
  get_date_by_offset read_calendar run_date a exchange excl incl = inr d →
  get_date_by_offset read_calendar d b exchange excl incl
  = get_date_by_offset read_calendar run_date (a + b) exchange excl incl.
Proof.
  intros Hdup Ha Hd.
  apply get_date_by_offset_forward in Hd as (i & Hrun & Hd); [|done].
  pose proof (column_NoDup read_calendar exchange excl incl Hdup) as Hdup'.
  rewrite (get_date_by_offset_at _ _ _ _ _ _ _ Hdup' Hd).
  rewrite (get_date_by_offset_at _ _ _ _ _ _ _ Hdup' Hrun).
  f_equal. lia.
Qed.

(** X19. An offset that goes back beyond the first date does not fail as long
    as it stays within the length of the calendar: the position is then
    counted from the end. With [run_date] at position [i] of the list [l] of
    all the dates that pass the filters, and [-len(l) <= i + offset < 0], the
    result is [l[len(l) + i + offset]]: a request for a date before the
    beginning of the calendar is answered with a date near its end. *)
Theorem offset_wraps_around lo hi run_date offset exchange excl incl (i : nat) :
  (∀ r, r ∈ read_calendar exchange → lo ≤ TradeDate r ≤ hi) →
  NoDup (TradeDate <$> read_calendar exchange) →
  get_date_list read_calendar lo hi exchange excl incl !! i = Some run_date →
  Z.of_nat i + offset < 0 →
  0 ≤ Z.of_nat (length (get_date_list read_calendar lo hi exchange excl incl))
      + Z.of_nat i + offset →
  ∃ d,
    get_date_list read_calendar lo hi exchange excl incl
      !! Z.to_nat (Z.of_nat (length (get_date_list read_calendar lo hi exchange
                                       excl incl))
                   + Z.of_nat i + offset) = Some d
    ∧ get_date_by_offset read_calendar run_date offset exchange excl incl = inr d.
Proof.
  intros Hcover Hdup. rewrite get_date_list_whole by done.
  set (l := TradeDate <$> _). intros Hi Hneg Hin.
  destruct (lookup_lt_is_Some_2 l (Z.to_nat (Z.of_nat (length l) + Z.of_nat i + offset)))
    as [d Hd]; [lia|].
  exists d. split; [done|].
  rewrite (get_date_by_offset_at read_calendar run_date offset exchange excl incl i);
    [|by apply column_NoDup|done].
  fold l. unfold series_getitem.
  destruct (Z.ltb_spec (Z.of_nat i + offset) 0); [|lia].
  destruct (Z.ltb_spec (Z.of_nat i + offset + Z.of_nat (length l)) 0); [lia|].
  replace (Z.of_nat i + offset + Z.of_nat (length l))
    with (Z.of_nat (length l) + Z.of_nat i + offset) by lia.
  by rewrite Hd.
Qed.


(** X21. On a calendar with strictly increasing dates, the date that
    [get_date_by_offset] finds [k >= 0] trading days after [run_date] is the
    one up to which [get_date_list], with the same flags, lists [k + 1] dates
    from [run_date] on, [run_date] first and that date last. *)
Theorem offset_counts_trading_days run_date k exchange excl incl (d : Z) :
  StronglySorted Z.lt (TradeDate <$> read_calendar exchange) → 0 ≤ k →
  get_date_by_offset read_calendar run_date k exchange excl incl = inr d →
  Z.of_nat (length (get_date_list read_calendar run_date d exchange excl incl))
  = k + 1
  ∧ head (get_date_list read_calendar run_date d exchange excl incl) = Some run_date
  ∧ last (get_date_list read_calendar run_date d exchange excl incl) = Some d.
Proof.
  intros Hsorted Hk Hd.
  apply get_date_by_offset_forward in Hd as (i & Hrun & Hd); [|done].
  rewrite get_date_list_eq, <- list_filter_filter.
  set (rows := filter _ (read_calendar exchange)) in *.
  replace (TradeDate <$> filter (λ r, run_date ≤ TradeDate r ≤ d) rows)
    with (filter (λ z, run_date ≤ z ≤ d) (TradeDate <$> rows))
    by (by rewrite filter_fmap).
  set (l := TradeDate <$> rows) in *.
  assert (Hl : StronglySorted Z.lt l).
  { eapply sublist_StronglySorted; [|exact Hsorted]. apply column_sublist. }
  rewrite (filter_between_sorted l i (Z.to_nat k) run_date d Hl Hrun Hd).
  pose proof (lookup_lt_Some _ _ _ Hd) as Hlen.
  split_and!.
  - rewrite length_take, length_drop. lia.
  - rewrite head_lookup, lookup_take_lt by lia.
    by rewrite lookup_drop, Nat.add_0_r.
  - rewrite last_lookup, length_take, length_drop.
    replace (Init.Nat.pred (S (Z.to_nat k) `min` (length l - i)))
      with (Z.to_nat k) by lia.
    rewrite lookup_take_lt by lia. by rewrite lookup_drop.
Qed.

End CalendarProperties.

(** ** What folding is for *)

Section NoShortSlice.
Context {A : Type}.
Implicit Types (h : gmap loc (list A)) (d : loc) (ds : list A).

Lemma folded_val_lengths ds tw vw k t v :
  0 ≤ tw → 1 ≤ vw → vw ≤ Z.of_nat (length ds) - tw →
  splits_from ds tw vw true
    (Z.to_nat (range_length 0 (Z.of_nat (length ds)) vw)) 0 !! k = Some (t, v) →
  vw ≤ Z.of_nat (length v) < 2 * vw.
Proof.
  intros Htw Hvw Hroom Hk.
  pose proof (lookup_lt_Some _ _ _ Hk) as Hlt.
  pose proof (splits_count ds tw vw true Htw Hvw) as Hcount. cbv beta iota in Hcount.
  destruct (Z.leb_spec (Z.of_nat (length ds)) tw); [lia|].
  destruct (splits_closed_form ds tw vw true Htw Hvw k t v Hk)
    as (Hin & _ & Hmid & Hlast).
  pose proof (start_nonneg vw Hvw k).
  match type of Hlt with (_ < length ?l)%nat => set (splits := l) in * end.
  destruct (decide (S k < length splits)%nat) as [Hmore|Hend].
  - destruct (lookup_lt_is_Some_2 splits (S k) Hmore) as [[t' v'] Hk'].
    destruct (splits_closed_form ds tw vw true Htw Hvw (S k) t' v' Hk')
      as (Hin' & _).
    rewrite (Hmid Hmore), length_take, length_drop. lia.
  - rewrite (Hlast ltac:(lia)), length_drop.
    pose proof (Z.mul_div_le (Z.of_nat (length ds) - tw) vw ltac:(lia)).
    pose proof (Z.mul_succ_div_gt (Z.of_nat (length ds) - tw) vw ltac:(lia)).
    nia.
Qed.

(** X10. With [fold_incomplete], no validation slice is short as soon as
    [dates] can hold one full validation slice after the first training
    slice: every validation slice then has at least [val_window] and fewer
    than [2 * val_window] items. *)
Theorem folding_leaves_no_short_slice fuel h d ds tw vw :
  h !! d = Some ds → 0 ≤ tw → 1 ≤ vw → (length ds < fuel)%nat →
  vw ≤ Z.of_nat (length ds) - tw →
  ∃ splits,
    split_in fuel h d tw vw true = Some (inr splits)
    ∧ ∀ t v, (t, v) ∈ splits → vw ≤ Z.of_nat (length v) < 2 * vw.
Proof.
  intros Hd Htw Hvw Hfuel Hroom. eexists. split; [by apply split_in_pos|].
  intros t v [k Hk]%list_elem_of_lookup. by eapply folded_val_lengths.
Qed.

End NoShortSlice.

(** ** The further properties at concrete arguments *)

Lemma validation_slices_tile_witness :
  ∃ splits,
    split_in 11 store10 1%positive 3 2 false = Some (inr splits)
    ∧ concat splits.*2 = drop (Z.to_nat 3) range10.
Proof.
  apply (validation_slices_tile 11 store10 1%positive range10 3 2 false);
    [reflexivity | lia | lia | simpl; lia].
Defined.

Lemma training_slices_slide_witness :
  ∃ splits,
    split_in 11 store10 1%positive 3 2 false = Some (inr splits)
    ∧ ∀ k t v t' v',
        splits !! k = Some (t, v) → splits !! S k = Some (t', v') →
        drop (Z.to_nat 2) t = take (Z.to_nat (3 - 2)) t'.
Proof.
  apply (training_slices_slide 11 store10 1%positive range10 3 2 false);
    [reflexivity | lia | lia | simpl; lia].
Defined.

Lemma training_ends_with_previous_validation_witness :
  ∃ splits,
    split_in 11 store10 1%positive 3 2 false = Some (inr splits)
    ∧ ∀ k t v t' v',
        splits !! k = Some (t, v) → splits !! S k = Some (t', v') →
        drop (Z.to_nat (3 - 2)) t' = drop (Z.to_nat (2 - 3)) v.
Proof.
  apply (training_ends_with_previous_validation 11 store10 1%positive range10 3 2 false);
    [reflexivity | lia | lia | simpl; lia].
Defined.

Lemma number_of_splits_witness :
  ∃ splits,
    split_in 11 store10 1%positive 3 2 true = Some (inr splits)
    ∧ Z.of_nat (length splits)
      = if Z.of_nat (length range10) <=? 3 then 0
        else Z.max 1 ((Z.of_nat (length range10) - 3) / 2).
Proof.
  apply (number_of_splits 11 store10 1%positive range10 3 2 true);
    [reflexivity | lia | lia | simpl; lia].
Defined.

Lemma folding_merges_the_tail_witness :
  ∃ folded unfolded,
    split_in 11 store10 1%positive 3 2 true = Some (inr folded)
    ∧ split_in 11 store10 1%positive 3 2 false = Some (inr unfolded)
    ∧ ∀ k t v, folded !! k = Some (t, v) →
        ∃ v', unfolded !! k = Some (t, v')
              ∧ ((S k < length folded)%nat → v' = v)
              ∧ (length folded = S k → v = concat (drop k unfolded).*2).
Proof.
  apply (folding_merges_the_tail 11 store10 1%positive range10 3 2);
    [reflexivity | lia | lia | simpl; lia].
Defined.

Lemma folding_without_remainder_witness :
  split_in 11 store10 1%positive 4 2 true = split_in 11 store10 1%positive 4 2 false
  ∧ is_Some (split_in 11 store10 1%positive 4 2 true).
Proof.
  apply (folding_without_remainder 11 store10 1%positive range10 4 2);
    [reflexivity | lia | lia | simpl; lia | reflexivity].
Defined.

Lemma negative_val_window_yields_nothing_witness :
  split_in 11 store10 1%positive 3 (-2) true = Some (inr []).
Proof.
  apply (negative_val_window_yields_nothing 11 store10 1%positive range10 3 (-2) true);
    [reflexivity | lia | simpl; lia].
Defined.

Lemma yielded_lists_are_new_witness :
  ∃ t v g' h',
    gen_next (create_train_val_date_splits 1%positive 3 2 false) store10
    = (Yield t v, g', h')
    ∧ (store10 !! t = None ∧ store10 !! v = None
       ∧ t ≠ dates (create_train_val_date_splits 1%positive 3 2 false)
       ∧ v ≠ dates (create_train_val_date_splits 1%positive 3 2 false)
       ∧ t ≠ v
       ∧ is_Some (h' !! t) ∧ is_Some (h' !! v)).
Proof.
  eexists _, _, _, _. split; [vm_compute; reflexivity|].
  eapply (yielded_lists_are_new (create_train_val_date_splits 1%positive 3 2 false)
            store10).
  vm_compute. reflexivity.
Defined.

Lemma folding_leaves_no_short_slice_witness :
  ∃ splits,
    split_in 11 store10 1%positive 3 2 true = Some (inr splits)
    ∧ ∀ t v, (t, v) ∈ splits → 2 ≤ Z.of_nat (length v) < 2 * 2.
Proof.
  apply (folding_leaves_no_short_slice 11 store10 1%positive range10 3 2);
    [reflexivity | lia | lia | simpl; lia | simpl; lia].
Defined.

Lemma sample_calendar_covered (exchange : string) (r : cal_row) :
  r ∈ sample_calendar exchange → 20240101 ≤ TradeDate r ≤ 20240131.
Proof.
  revert r. apply Forall_forall. unfold sample_calendar.
  repeat constructor; cbn; lia.
Defined.

Lemma sample_calendar_increasing (exchange : string) :
  StronglySorted Z.lt (TradeDate <$> sample_calendar exchange).
Proof. cbn. repeat constructor; lia. Defined.

Lemma sample_calendar_sorted (exchange : string) :
  StronglySorted Z.le (TradeDate <$> sample_calendar exchange).
Proof. cbn. repeat constructor; lia. Defined.

Lemma sample_calendar_NoDup (exchange : string) :
  NoDup (TradeDate <$> sample_calendar exchange).
Proof. cbn. apply (bool_decide_unpack _). vm_compute. exact I. Defined.

Lemma get_date_list_keeps_order_witness :
  get_date_list sample_calendar 20240101 20240131 "XNYS" true true
    `sublist_of` TradeDate <$> sample_calendar "XNYS"
  ∧ (StronglySorted Z.lt (TradeDate <$> sample_calendar "XNYS") →
     StronglySorted Z.lt
       (get_date_list sample_calendar 20240101 20240131 "XNYS" true true)).
Proof.
  apply (get_date_list_keeps_order sample_calendar 20240101 20240131 "XNYS" true true).
Defined.

Lemma get_date_list_splits_range_witness :
  get_date_list sample_calendar 20240101 20240131 "XNYS" true true
  = get_date_list sample_calendar 20240101 20240103 "XNYS" true true
    ++ get_date_list sample_calendar (20240103 + 1) 20240131 "XNYS" true true.
Proof.
  apply (get_date_list_splits_range sample_calendar 20240101 20240103 20240131
           "XNYS" true true); [apply sample_calendar_sorted | lia].
Defined.

Lemma offset_date_passes_filters_witness :
  20240105 ∈ get_date_list sample_calendar 20240105 20240105 "XNYS" true true.
Proof.
  apply (offset_date_passes_filters sample_calendar 20240102 2 "XNYS" true true).
  vm_compute. reflexivity.
Defined.

Lemma offset_of_missing_date_fails_witness :
  get_date_by_offset sample_calendar 20240104 1 "XNYS" true true
  = inl (NotOneRow 0).
Proof.
  apply (offset_of_missing_date_fails sample_calendar 20240104 1 "XNYS" true true).
  vm_compute. apply not_elem_of_nil.
Defined.


Lemma offset_round_trip_witness :
  get_date_by_offset sample_calendar 20240108 (- 2) "XNYS" true true
  = inr 20240103.
Proof.
  apply (offset_round_trip sample_calendar 20240103 2 "XNYS" true true 20240108);
    [apply sample_calendar_NoDup | lia | vm_compute; reflexivity].
Defined.

Lemma offset_compose_witness :
  get_date_by_offset sample_calendar 20240103 2 "XNYS" false true
  = get_date_by_offset sample_calendar 20240102 (1 + 2) "XNYS" false true.
Proof.
  apply (offset_compose sample_calendar 20240102 1 2 "XNYS" false true 20240103);
    [apply sample_calendar_NoDup | lia | vm_compute; reflexivity].
Defined.

Lemma offset_wraps_around_witness :
  ∃ d,
    get_date_list sample_calendar 20240101 20240131 "XNYS" false true
      !! Z.to_nat (Z.of_nat (length (get_date_list sample_calendar 20240101 20240131
                                       "XNYS" false true))
                   + Z.of_nat 0 + -1) = Some d
    ∧ get_date_by_offset sample_calendar 20240102 (-1) "XNYS" false true = inr d.
Proof.
  apply (offset_wraps_around sample_calendar 20240101 20240131 20240102 (-1)
           "XNYS" false true 0);
    [apply sample_calendar_covered | apply sample_calendar_NoDup | reflexivity
    | lia | vm_compute; discriminate].
Defined.


Lemma offset_counts_trading_days_witness :
  Z.of_nat (length (get_date_list sample_calendar 20240102 20240105 "XNYS" true true))
  = 2 + 1
  ∧ head (get_date_list sample_calendar 20240102 20240105 "XNYS" true true)
    = Some 20240102
  ∧ last (get_date_list sample_calendar 20240102 20240105 "XNYS" true true)
    = Some 20240105.
Proof.
  apply (offset_counts_trading_days sample_calendar 20240102 2 "XNYS" true true
           20240105);
    [apply sample_calendar_increasing | lia | vm_compute; reflexivity].
Defined.
